(** * creativize-ai: the content proxy and the content generator component

    A shallow embedding of

    - [supabase/functions/generate-content/index.ts] (the server-side
      content proxy), and
    - [src/components/ContentGenerator.tsx] (card search and the generation
      workflow of the client),

    together with the properties of both that the specification states. *)

From Stdlib Require Import String Ascii NArith DecimalString.
From stdpp Require Import base option list gmap.
From Equations Require Import Equations.

Local Open Scope N_scope.

(** ** JavaScript strings

    A JavaScript string is a sequence of 16-bit code units. *)

Definition code_unit : Type := N.
Definition jsstring : Type := list code_unit.

(** A literal of the source whose characters are all in the ASCII range. *)
Definition lit (s : string) : jsstring :=
  List.map N_of_ascii (list_ascii_of_string s).

#[global] Arguments lit : simpl never.

(** Truthiness of a string: [!s] holds exactly for the empty string. *)
Definition truthy (s : jsstring) : bool :=
  match s with
  | [] => false
  | _ :: _ => true
  end.

(** The class [\d] of a regular expression without the unicode flag. *)
Definition is_digit (c : code_unit) : bool := (48 <=? c) && (c <=? 57).

Definition is_dot (c : code_unit) : bool := c =? 46.

(** WhiteSpace and LineTerminator of ECMAScript, the code units that
    [String.prototype.trim] strips. *)
Definition is_white_space (c : code_unit) : bool :=
  (c =? 0x09) || (c =? 0x0A) || (c =? 0x0B) || (c =? 0x0C) || (c =? 0x0D)
  || (c =? 0x20) || (c =? 0xA0) || (c =? 0x1680)
  || ((0x2000 <=? c) && (c <=? 0x200A))
  || (c =? 0x2028) || (c =? 0x2029) || (c =? 0x202F) || (c =? 0x205F)
  || (c =? 0x3000) || (c =? 0xFEFF).

Fixpoint trimStart (s : jsstring) : jsstring :=
  match s with
  | [] => []
  | c :: r => if is_white_space c then trimStart r else s
  end.

Definition trimEnd (s : jsstring) : jsstring := rev (trimStart (rev s)).

Definition trim (s : jsstring) : jsstring := trimEnd (trimStart s).

(** [s.startsWith(sub)] *)
Fixpoint startsWith (s sub : jsstring) : bool :=
  match sub, s with
  | [], _ => true
  | _ :: _, [] => false
  | a :: sub', b :: s' => (a =? b) && startsWith s' sub'
  end.

(** [s.includes(sub)] *)
Fixpoint includes (s sub : jsstring) : bool :=
  startsWith s sub ||
  match s with
  | [] => false
  | _ :: r => includes r sub
  end.

(** The part of the runtime that the repository calls and that is fixed by
    the Unicode tables of the engine, not by the repository. *)
Class Runtime : Type := {
  toLowerCase : jsstring -> jsstring
}.

(** [toLowerCase] on the Basic Latin block, where it is the runtime's. *)
Definition lower_unit (c : code_unit) : code_unit :=
  if (65 <=? c) && (c <=? 90) then c + 32 else c.

Definition basic_latin : Runtime := {| toLowerCase := List.map lower_unit |}.

(** Number to string conversion of a template literal, for the integers it
    is used on. *)
Definition number_to_string (n : N) : jsstring :=
  lit (NilZero.string_of_uint (N.to_uint n)).

(** ** [String.prototype.split] with the separator [/\d+\./]

    [skip_digits s] is what is left of [s] after the greedy [\d*]. *)
Fixpoint skip_digits (s : jsstring) : jsstring :=
  match s with
  | [] => []
  | c :: r => if is_digit c then skip_digits r else s
  end.

(** The sticky match of [/\d+\./] at the head of [s]: the rest of [s]
    behind the match, or [None]. The digits carry no dot, so giving back
    digits never lets a failed match succeed. *)
Definition match_separator (s : jsstring) : option jsstring :=
  match s with
  | [] => None
  | c :: r =>
      if is_digit c then
        match skip_digits r with
        | d :: rest => if is_dot d then Some rest else None
        | [] => None
        end
      else None
  end.

(** The loop of the split algorithm: [cur] holds the code units since the
    end of the last separator, [s] what is still to be scanned. At each
    position the separator is tried; when it fails the scan moves one code
    unit on. *)
Equations? split_loop (cur s : jsstring) : list jsstring by wf (length s) lt :=
  split_loop cur [] := [cur];
  split_loop cur (c :: r) with Logic.inspect (match_separator (c :: r)) := {
    | exist _ (Some rest) Hm => cur :: split_loop [] rest;
    | exist _ None _ => split_loop (cur ++ [c]) r }.
Proof.
  assert (Hskip : forall t : jsstring,
             (length (skip_digits t) <= length t)%nat).
  { induction t as [|a t IH]; simpl; [lia|].
    destruct (is_digit a); simpl; lia. }
  simpl in Hm. destruct (is_digit c); [|discriminate].
  specialize (Hskip r).
  destruct (skip_digits r) as [|d rest']; [discriminate|].
  destruct (is_dot d); [|discriminate].
  injection Hm as <-. simpl in *. lia.
Qed.

Definition split (s : jsstring) : list jsstring := split_loop [] s.

(** A string ends clean when it has a last code unit and [trim] would
    leave that code unit in place. *)
Definition ends_clean (s : jsstring) : Prop :=
  exists front c, s = front ++ [c] /\ is_white_space c = false.

(** [sub] is a contiguous part of [s]. *)
Definition infix (sub s : jsstring) : Prop :=
  exists front back, s = front ++ sub ++ back.

(** The separator [/\d+\./] matches somewhere in [s]. *)
Fixpoint has_separator (s : jsstring) : bool :=
  match s with
  | [] => false
  | _ :: r =>
      match match_separator s with
      | Some _ => true
      | None => false
      end || has_separator r
  end.

(** ** Exceptions

    A computation of the source that may throw: the message of the error
    that was thrown, or the value. [try]/[catch] is a [match] on it. *)

Definition Exn (A : Type) : Type := jsstring + A.

Definition throw {A : Type} (message : jsstring) : Exn A := inl message.

#[global] Instance exn_ret : MRet Exn := fun A x => inr x.

#[global] Instance exn_bind : MBind Exn := fun A B f m =>
  match m with
  | inl message => inl message
  | inr x => f x
  end.

(** * The content proxy: [supabase/functions/generate-content/index.ts] *)

Module Proxy.

(** The fields the handler reads from the JSON body of the request. *)
Record ContentRequest : Type := {
  cardName : jsstring;
  bankName : jsstring;
  platform : jsstring;
  audience : jsstring;
  language : jsstring;
  tone : jsstring;
  customPrompt : option jsstring
}.

(** A request: its method and what [req.json()] gives, the fields or the
    error it throws. *)
Record Request : Type := {
  method : jsstring;
  json : Exn ContentRequest
}.

(** What [response.json()] of the generative API gives: the text at
    [candidates[0].content.parts[0].text], or the error thrown on the way
    to it. *)
Inductive UpstreamBody : Type :=
| Unreadable (message : jsstring)
| GeneratedText (text : jsstring).

(** The outcome of [fetch]: it throws, or the API responds with a status. *)
Inductive Upstream : Type :=
| FetchRejected (message : jsstring)
| Responded (status : N) (payload : UpstreamBody).

(** [response.ok] *)
Definition ok (status : N) : bool := (200 <=? status) && (status <=? 299).

(** The environment of the function: the configured credential and the
    generative API, which answers a key and a prompt. *)
Record Env : Type := {
  GEMINI_API_KEY : option jsstring;
  gemini : jsstring -> jsstring -> Upstream
}.

Inductive ResponseBody : Type :=
| NullBody
| VariationsBody (variations : list jsstring)
| ErrorBody (error : jsstring).

Record Response : Type := {
  status : N;
  headers : list (jsstring * jsstring);
  body : ResponseBody
}.

Definition corsHeaders : list (jsstring * jsstring) :=
  [ (lit "Access-Control-Allow-Origin", lit "*");
    (lit "Access-Control-Allow-Headers",
     lit "authorization, x-client-info, apikey, content-type") ].

(** The headers of the two JSON responses, lines 71 and 78. *)
Definition jsonHeaders : list (jsstring * jsstring) :=
  corsHeaders ++ [(lit "Content-Type", lit "application/json")].

Definition nl : jsstring := [10].
Definition quote : jsstring := [34].

(** The prompt, lines 25 to 33. *)
Definition prompt (r : ContentRequest) : jsstring :=
  lit "Create 4 variations of content to promote the " ++ quote ++ cardName r
    ++ quote ++ lit " credit card from " ++ bankName r ++ lit "." ++ nl
  ++ lit "Platform: " ++ platform r ++ nl
  ++ lit "Audience: " ++ audience r ++ nl
  ++ lit "Language: " ++ language r ++ nl
  ++ lit "Tone: " ++ tone r ++ nl
  ++ nl
  ++ match customPrompt r with
     | Some instruction =>
         if truthy instruction
         then lit "Additional instruction: " ++ instruction
         else []
     | None => []
     end ++ nl
  ++ nl
  ++ lit "The content should be platform-appropriate, concise, and persuasive. Return exactly 4 different variations, each on a new line, numbered 1-4.".

(** Lines 57 to 61: split, filter, trim, slice. *)
Definition segments (generatedText : jsstring) : list jsstring :=
  take 4
    (List.map trim
       (List.filter (fun text => truthy (trim text)) (split generatedText))).

Section WithRuntime.

Context `{Runtime}.

(** The string pushed at line 65. *)
Definition fallback (r : ContentRequest) : jsstring :=
  cardName r ++ lit " from " ++ bankName r ++ lit " - Great choice for "
    ++ toLowerCase (audience r) ++ lit "!".

(** The loop of lines 64 to 66. *)
Equations? pad (filler : jsstring) (variations : list jsstring)
  : list jsstring by wf (4 - length variations)%nat lt :=
  pad filler variations with decide (length variations < 4)%nat := {
    | left _ => pad filler (variations ++ [filler]);
    | right _ => variations }.
Proof. rewrite length_app. simpl. lia. Qed.

(** The split/pad algorithm: the array [variations] as it stands at line 68. *)
Definition variations (r : ContentRequest) (generatedText : jsstring)
  : list jsstring :=
  pad (fallback r) (segments generatedText).

(** The [try] block, lines 16 to 70: the array that is sent, or the error
    that is thrown. *)
Definition attempt (env : Env) (req : Request) : Exn (list jsstring) :=
  r ← json req;
  geminiApiKey ←
    match GEMINI_API_KEY env with
    | Some key => if truthy key then mret key
                  else throw (lit "Gemini API key not configured")
    | None => throw (lit "Gemini API key not configured")
    end;
  match gemini env geminiApiKey (prompt r) with
  | FetchRejected message => throw message
  | Responded st payload =>
      if ok st then
        match payload with
        | Unreadable message => throw message
        | GeneratedText generatedText =>
            mret (take 4 (variations r generatedText))
        end
      else throw (lit "Gemini API error: " ++ number_to_string st)
  end.

(** The handler given to [serve]; what it writes to the console is left
    out. A response built without a status has status 200. *)
Definition serve (env : Env) (req : Request) : Response :=
  if decide (method req = lit "OPTIONS") then
    {| status := 200; headers := corsHeaders; body := NullBody |}
  else
    match attempt env req with
    | inr vs =>
        {| status := 200; headers := jsonHeaders; body := VariationsBody vs |}
    | inl message =>
        {| status := 500; headers := jsonHeaders; body := ErrorBody message |}
    end.

End WithRuntime.

(** The generative API answers the call of lines 37 to 47 for [req], the
    one call the handler makes, with a non-success status: whenever the
    body of [req] is read and a credential is there, the answer to that
    credential and the prompt of that body has a status outside 200 to
    299. What the API would answer to other calls is left open. *)
Definition upstream_refuses (env : Env) (req : Request) : Prop :=
  forall r key,
    json req = inr r ->
    GEMINI_API_KEY env = Some key ->
    exists st payload,
      gemini env key (prompt r) = Responded st payload /\ ok st = false.

(** The credential is not configured: the variable is unset or empty. *)
Definition credential_absent (env : Env) : Prop :=
  match GEMINI_API_KEY env with
  | Some key => key = []
  | None => True
  end.

(** A request of the form, from the audience as a caller may spell it. *)
Definition sample_request : ContentRequest :=
  {| cardName := lit "Card"; bankName := lit "Bank";
     platform := lit "whatsapp"; audience := lit "Friends";
     language := lit "english"; tone := lit "friendly";
     customPrompt := None |}.

(** An environment with no credential, whose API would answer 503. *)
Definition no_credential : Env :=
  {| GEMINI_API_KEY := None;
     gemini := fun _ _ => Responded 503 (Unreadable []) |}.

Definition preflight : Request :=
  {| method := lit "OPTIONS"; json := inr sample_request |}.

Definition post : Request :=
  {| method := lit "POST"; json := inr sample_request |}.

(** The same fields for another card, bank and audience. *)
Definition other_request : ContentRequest :=
  {| cardName := lit "Other"; bankName := lit "Elsewhere";
     platform := lit "whatsapp"; audience := lit "family";
     language := lit "english"; tone := lit "friendly";
     customPrompt := Some (lit "mention the lounge") |}.

(** An environment with a credential, whose API answers with four numbered
    lines. *)
Definition working : Env :=
  {| GEMINI_API_KEY := Some (lit "key");
     gemini := fun _ _ =>
       Responded 200 (GeneratedText (lit "1. a 2. b 3. c 4. d")) |}.

(** An environment with a credential, whose API answers 404 and sends a
    text along. *)
Definition not_found : Env :=
  {| GEMINI_API_KEY := Some (lit "key");
     gemini := fun _ _ => Responded 404 (GeneratedText (lit "1. a")) |}.

(** An environment with a credential, whose API refuses the prompt of the
    sample request with 503 and answers every other prompt. *)
Definition flaky : Env :=
  {| GEMINI_API_KEY := Some (lit "key");
     gemini := fun _ p =>
       if decide (p = prompt sample_request)
       then Responded 503 (GeneratedText (lit "1. a"))
       else Responded 200 (GeneratedText (lit "1. a 2. b 3. c 4. d")) |}.

(** A request with the fields of [other_request]. *)
Definition other_post : Request :=
  {| method := lit "POST"; json := inr other_request |}.

(** A preflight whose body cannot be read. *)
Definition bare_preflight : Request :=
  {| method := lit "OPTIONS";
     json := inl (lit "Unexpected end of JSON input") |}.

End Proxy.

(** * The relational backend: the tables of [integrations/supabase/types.ts]
    that the component writes

    A table maps the generated primary key of a row to its columns. The
    column [created_at], a default of the database that the component never
    reads, is left out. *)

Module Db.

Abbreviation RowId := positive.

(** [user_inputs.Insert] *)
Record UserInput : Type := {
  card_id : option jsstring;
  platform : jsstring;
  audience : jsstring;
  language : jsstring;
  tone : jsstring;
  custom_prompt : option jsstring
}.

(** [ai_outputs.Insert]; [input_id] references [user_inputs.id]. *)
Record AIOutput : Type := {
  input_id : option RowId;
  variation_number : N;
  content_variation : jsstring
}.

Record Tables : Type := {
  user_inputs : gmap RowId UserInput;
  ai_outputs : gmap RowId AIOutput
}.

(** [from("user_inputs").insert(row).select().single()] when it succeeds:
    the row is stored under a key the table does not hold yet, and comes
    back with that key. *)
Definition insert_user_input (row : UserInput) (t : Tables) : RowId * Tables :=
  let id := fresh (dom (user_inputs t)) in
  (id, {| user_inputs := <[id := row]> (user_inputs t);
          ai_outputs := ai_outputs t |}).

(** [from("ai_outputs").insert(row).select().single()] when it succeeds. *)
Definition insert_ai_output (row : AIOutput) (t : Tables) : RowId * Tables :=
  let id := fresh (dom (ai_outputs t)) in
  (id, {| user_inputs := user_inputs t;
          ai_outputs := <[id := row]> (ai_outputs t) |}).

End Db.

(** * The component: [src/components/ContentGenerator.tsx] *)

Module Client.

(** A card object of the catalog response. A field is [None] when the
    object lacks it, the case the optional chaining of the filter is for. *)
Module Catalog.

Record Card : Type := {
  id : jsstring;
  card_name : option jsstring;
  issuing_bank : option jsstring;
  slug : jsstring;
  description : option jsstring;
  rewards_summary : option jsstring
}.

(** What [fetch] and [response.json()] give: an error thrown by either, or
    the field [data.data] of the payload, [None] when there is none. *)
Inductive Response : Type :=
| Failed (message : jsstring)
| Payload (data : option (list Card)).

End Catalog.

(** [interface CreditCard], with the values the mapping of lines 70 to 77
    puts into it. *)
Record CreditCard : Type := {
  id : jsstring;
  card_name : option jsstring;
  bank_name : option jsstring;
  slug : jsstring;
  description : option jsstring;
  rewards_summary : option jsstring
}.

(** A row of [ai_outputs] as [.select().single()] returns it. *)
Definition GeneratedContent : Type := Db.RowId * Db.AIOutput.

(** The state hooks of the component. *)
Record State : Type := {
  selectedCard : option CreditCard;
  cardSearch : jsstring;
  searchResults : list CreditCard;
  isSearching : bool;
  platform : jsstring;
  audience : jsstring;
  language : jsstring;
  tone : jsstring;
  customPrompt : jsstring;
  isGenerating : bool;
  generatedContent : list GeneratedContent
}.

Definition setSelectedCard (v : option CreditCard) (st : State) : State :=
  {| selectedCard := v; cardSearch := cardSearch st;
     searchResults := searchResults st; isSearching := isSearching st;
     platform := platform st; audience := audience st;
     language := language st; tone := tone st;
     customPrompt := customPrompt st; isGenerating := isGenerating st;
     generatedContent := generatedContent st |}.

Definition setCardSearch (v : jsstring) (st : State) : State :=
  {| selectedCard := selectedCard st; cardSearch := v;
     searchResults := searchResults st; isSearching := isSearching st;
     platform := platform st; audience := audience st;
     language := language st; tone := tone st;
     customPrompt := customPrompt st; isGenerating := isGenerating st;
     generatedContent := generatedContent st |}.

Definition setSearchResults (v : list CreditCard) (st : State) : State :=
  {| selectedCard := selectedCard st; cardSearch := cardSearch st;
     searchResults := v; isSearching := isSearching st;
     platform := platform st; audience := audience st;
     language := language st; tone := tone st;
     customPrompt := customPrompt st; isGenerating := isGenerating st;
     generatedContent := generatedContent st |}.

Definition setIsSearching (v : bool) (st : State) : State :=
  {| selectedCard := selectedCard st; cardSearch := cardSearch st;
     searchResults := searchResults st; isSearching := v;
     platform := platform st; audience := audience st;
     language := language st; tone := tone st;
     customPrompt := customPrompt st; isGenerating := isGenerating st;
     generatedContent := generatedContent st |}.

Definition setPlatform (v : jsstring) (st : State) : State :=
  {| selectedCard := selectedCard st; cardSearch := cardSearch st;
     searchResults := searchResults st; isSearching := isSearching st;
     platform := v; audience := audience st;
     language := language st; tone := tone st;
     customPrompt := customPrompt st; isGenerating := isGenerating st;
     generatedContent := generatedContent st |}.

Definition setAudience (v : jsstring) (st : State) : State :=
  {| selectedCard := selectedCard st; cardSearch := cardSearch st;
     searchResults := searchResults st; isSearching := isSearching st;
     platform := platform st; audience := v;
     language := language st; tone := tone st;
     customPrompt := customPrompt st; isGenerating := isGenerating st;
     generatedContent := generatedContent st |}.

Definition setLanguage (v : jsstring) (st : State) : State :=
  {| selectedCard := selectedCard st; cardSearch := cardSearch st;
     searchResults := searchResults st; isSearching := isSearching st;
     platform := platform st; audience := audience st;
     language := v; tone := tone st;
     customPrompt := customPrompt st; isGenerating := isGenerating st;
     generatedContent := generatedContent st |}.

Definition setTone (v : jsstring) (st : State) : State :=
  {| selectedCard := selectedCard st; cardSearch := cardSearch st;
     searchResults := searchResults st; isSearching := isSearching st;
     platform := platform st; audience := audience st;
     language := language st; tone := v;
     customPrompt := customPrompt st; isGenerating := isGenerating st;
     generatedContent := generatedContent st |}.

Definition setCustomPrompt (v : jsstring) (st : State) : State :=
  {| selectedCard := selectedCard st; cardSearch := cardSearch st;
     searchResults := searchResults st; isSearching := isSearching st;
     platform := platform st; audience := audience st;
     language := language st; tone := tone st;
     customPrompt := v; isGenerating := isGenerating st;
     generatedContent := generatedContent st |}.

Definition setIsGenerating (v : bool) (st : State) : State :=
  {| selectedCard := selectedCard st; cardSearch := cardSearch st;
     searchResults := searchResults st; isSearching := isSearching st;
     platform := platform st; audience := audience st;
     language := language st; tone := tone st;
     customPrompt := customPrompt st; isGenerating := v;
     generatedContent := generatedContent st |}.

Definition setGeneratedContent (v : list GeneratedContent) (st : State)
  : State :=
  {| selectedCard := selectedCard st; cardSearch := cardSearch st;
     searchResults := searchResults st; isSearching := isSearching st;
     platform := platform st; audience := audience st;
     language := language st; tone := tone st;
     customPrompt := customPrompt st; isGenerating := isGenerating st;
     generatedContent := v |}.

(** The component and the backend it talks to. *)
Record World : Type := {
  ui : State;
  db : Db.Tables
}.

(** What an operation does to the outside: the requests it sends and the
    notices it shows, in the order of the calls. *)
Inductive Event : Type :=
| CatalogRequest
| InsertUserInput (row : Db.UserInput)
| InsertAIOutput (row : Db.AIOutput)
| Toast (title description : jsstring) (destructive : bool)
| ClipboardWrite (content : jsstring).

(** The error each insert of a run of [generateContent] comes back with,
    [None] when it succeeds; the inserts into [ai_outputs] are told apart
    by their index in [mockContent]. *)
Record Backend : Type := {
  inputError : option jsstring;
  outputError : nat -> option jsstring
}.

(** An absent field in a template literal. *)
Definition show (field : option jsstring) : jsstring :=
  match field with
  | Some s => s
  | None => lit "undefined"
  end.

Definition direct_hit : jsstring := [0xD83C; 0xDFAF].
Definition rocket : jsstring := [0xD83D; 0xDE80].

Section WithRuntime.

Context `{Runtime}.

(** The predicate of the filter, lines 65 to 67. *)
Definition matches (query : jsstring) (card : Catalog.Card) : bool :=
  match Catalog.card_name card with
  | Some name => includes (toLowerCase name) (toLowerCase query)
  | None => false
  end
  || match Catalog.issuing_bank card with
     | Some bank => includes (toLowerCase bank) (toLowerCase query)
     | None => false
     end.

(** Lines 65 to 68. *)
Definition filteredCards (query : jsstring) (data : option (list Catalog.Card))
  : list Catalog.Card :=
  match data with
  | Some cards => take 5 (List.filter (matches query) cards)
  | None => []
  end.

(** The mapping of lines 70 to 77. *)
Definition toCreditCard (card : Catalog.Card) : CreditCard :=
  {| id := Catalog.id card;
     card_name := Catalog.card_name card;
     bank_name := Catalog.issuing_bank card;
     slug := Catalog.slug card;
     description := Catalog.description card;
     rewards_summary := Catalog.rewards_summary card |}.

Definition search_failed : Event :=
  Toast (lit "Search failed") (lit "Couldn't search cards. Please try again.")
        true.

(** [searchCards], lines 40 to 87, with the response the catalog gives
    should it be asked. *)
Definition searchCards (query : jsstring) (response : Catalog.Response)
  (st : State) : State * list Event :=
  if negb (truthy (trim query)) then (setSearchResults [] st, [])
  else
    match response with
    | Catalog.Payload data =>
        (setIsSearching false
           (setSearchResults
              (List.map toCreditCard (filteredCards query data)) st),
         [CatalogRequest])
    | Catalog.Failed _ =>
        (setIsSearching false st, [CatalogRequest; search_failed])
    end.

(** Lines 118 to 126. The string is built and not used. *)
Definition prompt (card : CreditCard) (st : State) : jsstring :=
  lit "Create 4 variations of content to promote the " ++ [34]
    ++ show (card_name card) ++ [34] ++ lit " credit card." ++ [10]
  ++ lit "Platform: " ++ platform st ++ [10]
  ++ lit "Audience: " ++ audience st ++ [10]
  ++ lit "Language: " ++ language st ++ [10]
  ++ lit "Tone: " ++ tone st ++ [10]
  ++ [10]
  ++ (if truthy (customPrompt st)
      then lit "Additional instruction: " ++ customPrompt st else [])
  ++ [10]
  ++ [10]
  ++ lit "The content should be platform-appropriate, concise, and persuasive.".

(** Lines 129 to 134. *)
Definition mockContent (card : CreditCard) (st : State) : list jsstring :=
  [ direct_hit ++ lit " Exclusive " ++ show (card_name card)
      ++ lit " offer! Perfect for " ++ toLowerCase (audience st) ++ lit ". "
      ++ (if decide (tone st = lit "exciting") then rocket else []);
    lit "Looking for a great credit card? The " ++ show (card_name card)
      ++ lit " from " ++ show (bank_name card)
      ++ lit " is exactly what you need!";
    (if decide (tone st = lit "friendly")
     then lit "Hey there!" else lit "Attention:")
      ++ lit " Just discovered the amazing benefits of "
      ++ show (card_name card) ++ lit ". Worth checking out!";
    show (card_name card)
      ++ lit " review: This card offers incredible value. Here's why it's perfect for your needs..." ].

(** The object inserted into [user_inputs], lines 104 to 111. *)
Definition input_row (card : CreditCard) (st : State) : Db.UserInput :=
  {| Db.card_id := Some (id card);
     Db.platform := platform st;
     Db.audience := audience st;
     Db.language := language st;
     Db.tone := tone st;
     Db.custom_prompt :=
       if truthy (customPrompt st) then Some (customPrompt st) else None |}.

(** The object inserted into [ai_outputs], lines 140 to 144. *)
Definition output_row (input : Db.RowId) (index : nat) (content : jsstring)
  : Db.AIOutput :=
  {| Db.input_id := Some input;
     Db.variation_number := N.of_nat index + 1;
     Db.content_variation := content |}.

(** The callbacks of [mockContent.map], lines 137 to 150, from index
    [index] on: every insert is sent, whatever becomes of the others, and
    each gives its row or throws its error. The requests leave in the order
    of the indices, and the tables take them in that order. *)
Fixpoint contentPromises (be : Backend) (input : Db.RowId) (index : nat)
  (contents : list jsstring) (t : Db.Tables)
  : list (Exn GeneratedContent) * Db.Tables * list Event :=
  match contents with
  | [] => ([], t, [])
  | content :: rest =>
      let row := output_row input index content in
      let '(outcome, t1) :=
        match outputError be index with
        | Some error => (throw error, t)
        | None =>
            let '(key, t') := Db.insert_ai_output row t in
            (mret (key, row), t')
        end in
      let '(outcomes, t2, events) :=
        contentPromises be input (S index) rest t1 in
      (outcome :: outcomes, t2, InsertAIOutput row :: events)
  end.

(** [Promise.all]: the values when every promise is fulfilled, and an
    error of a rejected one otherwise. *)
Fixpoint all {A : Type} (promises : list (Exn A)) : Exn (list A) :=
  match promises with
  | [] => mret []
  | p :: rest => x ← p; xs ← all rest; mret (x :: xs)
  end.

(** The [try] block of [generateContent], lines 101 to 153: what it
    throws or the rows it hands to [setGeneratedContent], the tables and
    the requests sent. *)
Definition attempt (be : Backend) (card : CreditCard) (st : State)
  (t : Db.Tables) : Exn (list GeneratedContent) * Db.Tables * list Event :=
  let row := input_row card st in
  match inputError be with
  | Some error => (throw error, t, [InsertUserInput row])
  | None =>
      let '(inputData, t1) := Db.insert_user_input row t in
      let '(outcomes, t2, events) :=
        contentPromises be inputData 0 (mockContent card st) t1 in
      (all outcomes, t2, InsertUserInput row :: events)
  end.

Definition missing_information : Event :=
  Toast (lit "Missing information") (lit "Please fill in all required fields.")
        true.

Definition generation_failed : Event :=
  Toast (lit "Generation failed")
        (lit "Couldn't generate content. Please try again.") true.

(** The guard of line 90. *)
Definition complete (st : State) : bool :=
  match selectedCard st with
  | Some _ =>
      truthy (platform st) && truthy (audience st)
      && truthy (language st) && truthy (tone st)
  | None => false
  end.

(** [generateContent], lines 89 to 164. *)
Definition generateContent (be : Backend) (w : World) : World * list Event :=
  match selectedCard (ui w) with
  | Some card =>
      if complete (ui w) then
        let '(result, t, events) := attempt be card (ui w) (db w) in
        match result with
        | inr results =>
            ({| ui := setIsGenerating false
                        (setGeneratedContent results (ui w));
                db := t |},
             events)
        | inl _ =>
            ({| ui := setIsGenerating false (ui w); db := t |},
             events ++ [generation_failed])
        end
      else (w, [missing_information])
  | None => (w, [missing_information])
  end.

(** [copyToClipboard], lines 166 to 180, with the outcome of the write. *)
Definition copyToClipboard (content : jsstring) (written : bool)
  : list Event :=
  [ClipboardWrite content;
   if written
   then Toast (lit "Copied!") (lit "Content copied to clipboard successfully.")
              false
   else Toast (lit "Copy failed") (lit "Couldn't copy to clipboard.") true].

(** What the user can do with the rendered component. *)
Inductive Action : Type :=
| TypeSearch (value : jsstring) (response : Catalog.Response)
| ClickResult (card : CreditCard)
| SelectPlatform (value : jsstring)
| SelectAudience (value : jsstring)
| SelectLanguage (value : jsstring)
| SelectTone (value : jsstring)
| TypeCustomPrompt (value : jsstring)
| ClickGenerate (be : Backend)
| ClickCopy (content : jsstring) (written : bool).

(** The handlers of the rendered elements, lines 202 to 353. *)
Definition step (a : Action) (w : World) : World * list Event :=
  match a with
  | TypeSearch value response =>
      let '(st, events) := searchCards value response (setCardSearch value (ui w)) in
      ({| ui := st; db := db w |}, events)
  | ClickResult card =>
      ({| ui := setSearchResults []
                  (setCardSearch
                     (show (card_name card) ++ lit " - " ++ show (bank_name card))
                     (setSelectedCard (Some card) (ui w)));
          db := db w |}, [])
  | SelectPlatform value => ({| ui := setPlatform value (ui w); db := db w |}, [])
  | SelectAudience value => ({| ui := setAudience value (ui w); db := db w |}, [])
  | SelectLanguage value => ({| ui := setLanguage value (ui w); db := db w |}, [])
  | SelectTone value => ({| ui := setTone value (ui w); db := db w |}, [])
  | TypeCustomPrompt value =>
      ({| ui := setCustomPrompt value (ui w); db := db w |}, [])
  | ClickGenerate be => generateContent be w
  | ClickCopy content written => (w, copyToClipboard content written)
  end.

(** [t] holds every row of [t0], with the columns it has in [t0]. *)
Definition grows (t0 t : Db.Tables) : Prop :=
  Db.user_inputs t0 ⊆ Db.user_inputs t /\ Db.ai_outputs t0 ⊆ Db.ai_outputs t.

(** From [w] to [w']: one row of [user_inputs] is new, it holds the fields
    of the form, four rows of [ai_outputs] are new, they reference it and
    carry the ordinals 1 to 4 and the strings of [mockContent card], and
    these four rows are what is displayed. *)
Definition adds_batch (card : CreditCard) (w w' : World) : Prop :=
  exists input o1 o2 o3 o4 c1 c2 c3 c4,
    let out n c :=
      {| Db.input_id := Some input; Db.variation_number := n;
         Db.content_variation := c |} in
    mockContent card (ui w) = [c1; c2; c3; c4]
    /\ Db.user_inputs (db w) !! input = None
    /\ Db.user_inputs (db w')
       = <[input := input_row card (ui w)]> (Db.user_inputs (db w))
    /\ NoDup [o1; o2; o3; o4]
    /\ (forall o, In o [o1; o2; o3; o4] -> Db.ai_outputs (db w) !! o = None)
    /\ Db.ai_outputs (db w')
       = <[o4 := out 4 c4]> (<[o3 := out 3 c3]> (<[o2 := out 2 c2]>
           (<[o1 := out 1 c1]> (Db.ai_outputs (db w)))))
    /\ generatedContent (ui w')
       = [(o1, out 1 c1); (o2, out 2 c2); (o3, out 3 c3); (o4, out 4 c4)].

(** The attribute [disabled] of the button [Generate Now], line 322. *)
Definition generateDisabled (st : State) : bool :=
  match selectedCard st with
  | Some _ => false
  | None => true
  end
  || negb (truthy (platform st)) || negb (truthy (audience st))
  || negb (truthy (language st)) || negb (truthy (tone st))
  || isGenerating st.

(** The handlers run one after the other, each to its end. *)
Fixpoint run (actions : list Action) (w : World) : World :=
  match actions with
  | [] => w
  | a :: rest => run rest (step a w).1
  end.

(** What [contentPromises] does, as a relation: from index [index] and
    tables [t], the contents leave the outcomes [outcomes] and the tables
    [t']. *)
Inductive stored (be : Backend) (input : Db.RowId)
  : nat -> list jsstring -> Db.Tables -> list (Exn GeneratedContent)
    -> Db.Tables -> Prop :=
| stored_nil index t : stored be input index [] t [] t
| stored_error index content rest t error outcomes t' :
    outputError be index = Some error ->
    stored be input (S index) rest t outcomes t' ->
    stored be input index (content :: rest) t (inl error :: outcomes) t'
| stored_row index content rest t outcomes t' :
    outputError be index = None ->
    stored be input (S index) rest
      (Db.insert_ai_output (output_row input index content) t).2 outcomes t' ->
    stored be input index (content :: rest) t
      (inr ((Db.insert_ai_output (output_row input index content) t).1,
            output_row input index content) :: outcomes) t'.

(** Every row of [ai_outputs] references a row of [user_inputs]. *)
Definition references_hold (t : Db.Tables) : Prop :=
  forall k row, Db.ai_outputs t !! k = Some row ->
    exists i, Db.input_id row = Some i /\ is_Some (Db.user_inputs t !! i).

(** The ordinals are 1 to 4, and no two rows of [ai_outputs] that reference
    the same input carry the same ordinal. *)
Definition ordinals_hold (t : Db.Tables) : Prop :=
  (forall k row, Db.ai_outputs t !! k = Some row ->
     1 <= Db.variation_number row <= 4)
  /\ (forall k1 k2 row1 row2,
        Db.ai_outputs t !! k1 = Some row1 ->
        Db.ai_outputs t !! k2 = Some row2 ->
        Db.input_id row1 = Db.input_id row2 ->
        Db.variation_number row1 = Db.variation_number row2 ->
        k1 = k2).

(** Each input has at most one batch of at most four outputs. *)
Definition batches_hold (t : Db.Tables) : Prop :=
  references_hold t /\ ordinals_hold t.

(** The tables while the batch of [input] is being stored: the ordinals
    1 to [n] may be taken. *)
Definition filling (input : Db.RowId) (n : nat) (t : Db.Tables) : Prop :=
  batches_hold t
  /\ is_Some (Db.user_inputs t !! input)
  /\ forall k row, Db.ai_outputs t !! k = Some row ->
       Db.input_id row = Some input ->
       Db.variation_number row <= N.of_nat n.

(** What is displayed is stored, and it is nothing or one whole batch in
    the order of its ordinals. *)
Definition displayed_ok (w : World) : Prop :=
  (forall k row, In (k, row) (generatedContent (ui w)) ->
     Db.ai_outputs (db w) !! k = Some row)
  /\ (generatedContent (ui w) = []
      \/ exists input,
           List.map (fun shown => (Db.input_id shown.2,
                                   Db.variation_number shown.2))
                    (generatedContent (ui w))
           = [(Some input, 1); (Some input, 2);
              (Some input, 3); (Some input, 4)]).

End WithRuntime.

(** *** A session *)

Definition sample_card : CreditCard :=
  {| id := lit "42"; card_name := Some (lit "Card");
     bank_name := Some (lit "Bank"); slug := lit "card";
     description := None; rewards_summary := None |}.

(** The form filled in, with nothing generated yet. *)
Definition filled : World :=
  {| ui := {| selectedCard := Some sample_card;
              cardSearch := lit "Card - Bank";
              searchResults := []; isSearching := false;
              platform := lit "whatsapp"; audience := lit "friends";
              language := lit "english"; tone := lit "friendly";
              customPrompt := []; isGenerating := false;
              generatedContent := [] |};
     db := {| Db.user_inputs := ∅; Db.ai_outputs := ∅ |} |}.

(** A backend that stores every row. *)
Definition reliable : Backend :=
  {| inputError := None; outputError := fun _ => None |}.

(** The world after the first generation, where [Regenerate] is shown. *)
Definition generated : World := (@generateContent basic_latin reliable filled).1.

(** The form with the tone not chosen yet. *)
Definition toneless : World :=
  {| ui := setTone [] (ui filled); db := db filled |}.

(** Two spaces, a tab and a no-break space. *)
Definition blank : jsstring := [0x20; 0x20; 0x09; 0xA0].

(** The sample card as the catalog has it. *)
Definition sample_raw : Catalog.Card :=
  {| Catalog.id := lit "42"; Catalog.card_name := Some (lit "Card");
     Catalog.issuing_bank := Some (lit "Bank");
     Catalog.slug := lit "card"; Catalog.description := None;
     Catalog.rewards_summary := None |}.

(** A catalog that answers with the sample card. *)
Definition catalog : Catalog.Response :=
  Catalog.Payload
    (Some [ {| Catalog.id := lit "42"; Catalog.card_name := Some (lit "Card");
               Catalog.issuing_bank := Some (lit "Bank");
               Catalog.slug := lit "card"; Catalog.description := None;
               Catalog.rewards_summary := None |} ]).

(** The same card, audience and tone on another platform, in another
    language and with a custom prompt. *)
Definition elsewhere : State :=
  setCustomPrompt (lit "highlight lounge access")
    (setLanguage (lit "hindi") (setPlatform (lit "instagram") (ui filled))).

(** A backend that refuses the input row. *)
Definition input_fails : Backend :=
  {| inputError := Some (lit "violates foreign key constraint");
     outputError := fun _ => None |}.

(** A backend that stores every row but the third output row. *)
Definition third_fails : Backend :=
  {| inputError := None;
     outputError := fun index =>
       if decide (index = 2%nat) then Some (lit "timeout") else None |}.

(** A session: a search, a card picked, a tone chosen, a generation that
    fails midway, one that succeeds, a copy, and a regeneration. *)
Definition session : list Action :=
  [ TypeSearch (lit "BAN") catalog; ClickResult sample_card;
    SelectTone (lit "exciting"); ClickGenerate third_fails;
    ClickGenerate reliable; ClickCopy (lit "text") true;
    ClickGenerate reliable ].

(** The filled form with the audience capitalised and a tone that is
    neither of the two the mock content asks for, and with another such
    tone. *)
Definition professional : State :=
  setAudience (lit "Friends") (setTone (lit "professional") (ui filled)).

Definition quirky : State := setTone (lit "quirky") (ui filled).

End Client.

(** * Properties *)

(** ** Strings *)

Lemma trimStart_head s c r : trimStart s = c :: r -> is_white_space c = false.
Proof.
  induction s as [|a s IH]; simpl; [discriminate|].
  destruct (is_white_space a) eqn:Ha; [exact IH|].
  intros [= <- _]. exact Ha.
Qed.

Lemma trimStart_white s : forallb is_white_space s = true -> trimStart s = [].
Proof.
  induction s as [|a s IH]; simpl; [reflexivity|].
  intros [Ha Hs]%andb_prop. rewrite Ha. auto.
Qed.

Lemma trim_white s : forallb is_white_space s = true -> trim s = [].
Proof.
  intros Hs. unfold trim, trimEnd. rewrite (trimStart_white s Hs). reflexivity.
Qed.

Lemma trim_ends_clean s : trim s <> [] -> ends_clean (trim s).
Proof.
  unfold trim, trimEnd.
  destruct (trimStart (rev (trimStart s))) as [|c r] eqn:E.
  - intros Hne. exfalso. apply Hne. reflexivity.
  - intros _. exists (rev r), c. split; [reflexivity|].
    exact (trimStart_head _ _ _ E).
Qed.

Lemma truthy_true s : truthy s = true <-> s <> [].
Proof. destruct s; simpl; split; congruence. Qed.

(** ** The content proxy *)

Module ProxyFacts.
Import Proxy.

Section WithRuntime.

Context `{Runtime}.

Lemma segments_length text : (length (segments text) <= 4)%nat.
Proof. unfold segments. rewrite length_take. lia. Qed.

Lemma segments_trimmed text :
  Forall (fun v => v <> [] /\ ends_clean v) (segments text).
Proof.
  unfold segments. apply Forall_take. apply List.Forall_map.
  apply List.Forall_forall. intros seg [_ Hseg]%List.filter_In.
  apply truthy_true in Hseg. split; [exact Hseg|].
  apply trim_ends_clean. exact Hseg.
Qed.

(** The loop appends the filler until four entries are there. *)
Lemma pad_replicate filler vs :
  pad filler vs = vs ++ replicate (4 - length vs) filler.
Proof.
  funelim (pad filler vs).
  - match goal with IH : pad _ _ = _ ++ _ |- _ => rewrite IH end.
    rewrite length_app. simpl.
    match goal with
    | |- context [(length ?v + 1)%nat] =>
        replace (4 - length v)%nat with (S (4 - (length v + 1)))%nat by lia
    end.
    simpl. rewrite <- app_assoc. reflexivity.
  - match goal with
    | |- ?v = _ => replace (4 - length v)%nat with 0%nat by lia
    end.
    simpl. rewrite app_nil_r. reflexivity.
Qed.

Lemma variations_length r text : length (variations r text) = 4%nat.
Proof.
  unfold variations. rewrite pad_replicate, length_app, length_replicate.
  pose proof (segments_length text). lia.
Qed.

Lemma fallback_ends_clean r : fallback r <> [] /\ ends_clean (fallback r).
Proof.
  assert (Hc : ends_clean (fallback r)).
  { exists (cardName r ++ lit " from " ++ bankName r
              ++ lit " - Great choice for " ++ toLowerCase (audience r)), 33.
    split; [|reflexivity].
    unfold fallback. rewrite <- !app_assoc. reflexivity. }
  split; [|exact Hc].
  destruct Hc as (front & c & -> & _). destruct front; discriminate.
Qed.

Lemma variations_trimmed r text :
  Forall (fun v => v <> [] /\ ends_clean v) (variations r text).
Proof.
  unfold variations. rewrite pad_replicate. apply Forall_app. split.
  - apply segments_trimmed.
  - apply Forall_replicate. apply fallback_ends_clean.
Qed.

Lemma variations_slice r text :
  take 4 (variations r text) = variations r text.
Proof. apply take_ge. rewrite variations_length. lia. Qed.

Lemma serve_variations env req vs :
  body (serve env req) = VariationsBody vs ->
  exists r text, vs = variations r text.
Proof.
  unfold serve. destruct (decide (method req = lit "OPTIONS")); [discriminate|].
  destruct (attempt env req) as [message|sent] eqn:Eattempt; [discriminate|].
  intros [= <-]. revert Eattempt.
  unfold attempt, mbind, exn_bind, mret, exn_ret, throw.
  destruct (json req) as [message|r]; [discriminate|].
  destruct (GEMINI_API_KEY env) as [[|c key]|]; simpl; try discriminate.
  destruct (gemini env (c :: key) (prompt r)) as [message|st payload];
    [discriminate|].
  destruct (ok st); [|discriminate].
  destruct payload as [message|text]; [discriminate|].
  intros [= <-]. exists r, text. apply variations_slice.
Qed.

(** With a credential and an answer of success that carries a text, the
    response is the array of the split/pad algorithm. *)
Lemma serve_success env req r key st text :
  method req <> lit "OPTIONS" ->
  json req = inr r ->
  GEMINI_API_KEY env = Some key ->
  key <> [] ->
  gemini env key (prompt r) = Responded st (GeneratedText text) ->
  ok st = true ->
  serve env req
  = {| status := 200; headers := jsonHeaders;
       body := VariationsBody (variations r text) |}.
Proof.
  intros Hmethod Hjson Hkey Hk Hgemini Hok. unfold serve.
  destruct (decide (method req = lit "OPTIONS")); [contradiction|].
  unfold attempt, mbind, exn_bind, mret, exn_ret, throw.
  rewrite Hjson, Hkey. destruct key as [|c key]; [contradiction|]. simpl.
  rewrite Hgemini, Hok, variations_slice. reflexivity.
Qed.

(** C1. Whatever text the generative API returns, and whatever the card
    name, bank name and audience of the request are (so in particular when
    they are non-empty), the split/pad algorithm leaves an array of exactly
    four strings, none of them empty, however many numbered segments the
    text holds; the final [slice(0, 4)] sends that array as it is. *)
Theorem variations_four_nonempty (r : ContentRequest) (generatedText : jsstring) :
  length (variations r generatedText) = 4%nat
  /\ Forall (fun v => v <> []) (variations r generatedText)
  /\ take 4 (variations r generatedText) = variations r generatedText.
Proof.
  split; [apply variations_length|]. split; [|apply variations_slice].
  eapply Forall_impl; [apply variations_trimmed|].
  intros v [Hv _]. exact Hv.
Qed.

Lemma segments_example :
  segments (lit "1. Great card! 2. Try it today.")
  = [lit "Great card!"; lit "Try it today."].
Proof. vm_compute. reflexivity. Qed.

(** C2, as the code has it. The text ["1. Great card! 2. Try it today."]
    yields the two segments and twice the fallback, in which the audience
    stands in lower case. *)
Theorem variations_example (r : ContentRequest) :
  variations r (lit "1. Great card! 2. Try it today.")
  = [ lit "Great card!";
      lit "Try it today.";
      cardName r ++ lit " from " ++ bankName r ++ lit " - Great choice for "
        ++ toLowerCase (audience r) ++ lit "!";
      cardName r ++ lit " from " ++ bankName r ++ lit " - Great choice for "
        ++ toLowerCase (audience r) ++ lit "!" ].
Proof.
  unfold variations. rewrite pad_replicate, segments_example. reflexivity.
Qed.

Lemma attempt_fails env req :
  credential_absent env \/ upstream_refuses env req ->
  exists message, attempt env req = inl message.
Proof.
  intros Hfail. unfold attempt, mbind, exn_bind, mret, exn_ret, throw.
  destruct (json req) as [message|r] eqn:Ejson;
    [exists message; reflexivity|].
  destruct (GEMINI_API_KEY env) as [key|] eqn:Ekey.
  - destruct key as [|c key]; simpl.
    + eexists. reflexivity.
    + destruct Hfail as [Habs|Hup].
      * unfold credential_absent in Habs. rewrite Ekey in Habs. discriminate.
      * destruct (Hup r (c :: key) Ejson Ekey) as (st & payload & Hg & Hok).
        rewrite Hg, Hok. eexists. reflexivity.
  - eexists. reflexivity.
Qed.

(** C3, as the code has it. A preflight request is answered with status
    200, the CORS headers and no body, whatever the credential, the body of
    the request and the generative API are. On every other request, a
    missing credential, or a generative API that answers the call made for
    this request with a non-success status, gives status 500 and a body of
    the error shape, never variations. *)
Theorem failure_is_error_shaped (env : Env) (req : Request) :
  (method req = lit "OPTIONS" ->
   serve env req
   = {| status := 200; headers := corsHeaders; body := NullBody |})
  /\ (method req <> lit "OPTIONS" ->
      credential_absent env \/ upstream_refuses env req ->
      status (serve env req) = 500
      /\ (exists message, body (serve env req) = ErrorBody message)
      /\ (forall vs, body (serve env req) <> VariationsBody vs)).
Proof.
  unfold serve. split.
  - intros Hmethod.
    destruct (decide (method req = lit "OPTIONS")) as [_|Hne];
      [reflexivity|contradiction].
  - intros Hmethod Hfail.
    destruct (decide (method req = lit "OPTIONS")) as [Heq|_];
      [contradiction|].
    destruct (attempt_fails env req Hfail) as [message ->]. simpl.
    split; [reflexivity|]. split; [exists message; reflexivity|].
    intros vs. discriminate.
Qed.

End WithRuntime.

(** The split/pad algorithm on texts of no, one, four and ten numbered
    segments. *)
Example variations_of_none :
  @variations basic_latin sample_request (lit "no list here at all")
  = [ lit "no list here at all";
      lit "Card from Bank - Great choice for friends!";
      lit "Card from Bank - Great choice for friends!";
      lit "Card from Bank - Great choice for friends!" ].
Proof. vm_compute. reflexivity. Qed.

Example variations_of_empty :
  @variations basic_latin sample_request []
  = [ lit "Card from Bank - Great choice for friends!";
      lit "Card from Bank - Great choice for friends!";
      lit "Card from Bank - Great choice for friends!";
      lit "Card from Bank - Great choice for friends!" ].
Proof. vm_compute. reflexivity. Qed.

Example variations_of_four :
  @variations basic_latin sample_request (lit "1. a 2. b 3. c 4. d")
  = [lit "a"; lit "b"; lit "c"; lit "d"].
Proof. vm_compute. reflexivity. Qed.

Example variations_of_ten :
  @variations basic_latin sample_request
    (lit "1. a 2. b 3. c 4. d 5. e 6. f 7. g 8. h 9. i 10. j")
  = [lit "a"; lit "b"; lit "c"; lit "d"].
Proof. vm_compute. reflexivity. Qed.

(** C2 as the specification words it, with the audience field as it came,
    fails on an audience that is not in lower case. *)
Lemma variations_example_keeps_no_case :
  @variations basic_latin sample_request (lit "1. Great card! 2. Try it today.")
  <> [ lit "Great card!";
       lit "Try it today.";
       cardName sample_request ++ lit " from " ++ bankName sample_request
         ++ lit " - Great choice for " ++ audience sample_request ++ lit "!";
       cardName sample_request ++ lit " from " ++ bankName sample_request
         ++ lit " - Great choice for " ++ audience sample_request ++ lit "!" ].
Proof. vm_compute. discriminate. Qed.

(** C3 as the specification words it fails on the preflight request: with
    no credential, and an API that would answer 503, the response has
    status 200 and no body. *)
Lemma preflight_is_not_an_error :
  credential_absent no_credential
  /\ (forall key p, exists st payload,
        gemini no_credential key p = Responded st payload /\ ok st = false)
  /\ @serve basic_latin no_credential preflight
     = {| status := 200; headers := corsHeaders; body := NullBody |}
  /\ ~ (exists message,
          body (@serve basic_latin no_credential preflight) = ErrorBody message).
Proof.
  split; [exact I|]. split.
  - intros key p. exists 503, (Unreadable []). split; reflexivity.
  - split; [vm_compute; reflexivity|].
    intros [message Hbody]. vm_compute in Hbody. discriminate.
Qed.

Lemma flaky_refuses_post : upstream_refuses flaky post.
Proof.
  intros r key Hjson Hkey. injection Hjson as <-.
  exists 503, (GeneratedText (lit "1. a")). split; [|reflexivity].
  unfold flaky. simpl.
  destruct (decide (prompt sample_request = prompt sample_request));
    [reflexivity|contradiction].
Qed.

(** The API of [flaky] refuses the one request only: the other request is
    served. *)
Example flaky_serves_others :
  @serve basic_latin flaky other_post
  = {| status := 200; headers := jsonHeaders;
       body := VariationsBody [lit "a"; lit "b"; lit "c"; lit "d"] |}.
Proof. vm_compute. reflexivity. Qed.

Lemma failure_is_error_shaped_witness :
  (method bare_preflight = lit "OPTIONS"
   /\ @serve basic_latin flaky bare_preflight
      = {| status := 200; headers := corsHeaders; body := NullBody |})
  /\ (method post <> lit "OPTIONS"
      /\ (credential_absent no_credential
          \/ upstream_refuses no_credential post)
      /\ status (@serve basic_latin no_credential post) = 500
      /\ (exists message,
            body (@serve basic_latin no_credential post) = ErrorBody message)
      /\ (forall vs,
            body (@serve basic_latin no_credential post) <> VariationsBody vs))
  /\ (method post <> lit "OPTIONS"
      /\ (credential_absent flaky \/ upstream_refuses flaky post)
      /\ ~ credential_absent flaky
      /\ status (@serve basic_latin flaky post) = 500
      /\ (exists message,
            body (@serve basic_latin flaky post) = ErrorBody message)
      /\ (forall vs,
            body (@serve basic_latin flaky post) <> VariationsBody vs)).
Proof.
  assert (Hp : method bare_preflight = lit "OPTIONS") by reflexivity.
  assert (Hm : method post <> lit "OPTIONS") by (vm_compute; discriminate).
  assert (Habsent : credential_absent no_credential
                    \/ upstream_refuses no_credential post)
    by (left; exact I).
  assert (Hrefused : credential_absent flaky \/ upstream_refuses flaky post)
    by (right; exact flaky_refuses_post).
  split; [split; [exact Hp|]|split; [split; [exact Hm|split; [exact Habsent|]]
                                    |split; [exact Hm|split; [exact Hrefused|
                                       split; [vm_compute; discriminate|]]]]].
  - exact (proj1 (@failure_is_error_shaped basic_latin flaky bare_preflight) Hp).
  - exact (proj2 (@failure_is_error_shaped basic_latin no_credential post)
             Hm Habsent).
  - exact (proj2 (@failure_is_error_shaped basic_latin flaky post)
             Hm Hrefused).
Defined.

End ProxyFacts.

(** ** The component *)

Module ClientFacts.
Import Client.

Lemma In_take {A : Type} (x : A) (n : nat) (l : list A) :
  In x (take n l) -> In x l.
Proof.
  revert n. induction l as [|a l IH]; intros [|n]; simpl; try tauto.
  intros [->|Hx]; [left; reflexivity|right; eauto].
Qed.

Section WithRuntime.

Context `{Runtime}.

(** C4. When no card is selected, or one of platform, audience, language
    and tone is unset, [generateContent] leaves the component and both
    tables as they were, sends no request, and shows the notice of missing
    information and nothing else. *)
Theorem incomplete_form_is_rejected (be : Backend) (w : World) :
  selectedCard (ui w) = None \/ platform (ui w) = [] \/ audience (ui w) = []
    \/ language (ui w) = [] \/ tone (ui w) = [] ->
  generateContent be w = (w, [missing_information]).
Proof.
  intros Hunset. unfold generateContent.
  destruct (selectedCard (ui w)) as [card|] eqn:Ecard; [|reflexivity].
  assert (Hc : complete (ui w) = false).
  { unfold complete. rewrite Ecard.
    destruct Hunset as [Hn|[-> |[-> |[-> | ->]]]];
      [discriminate| | | |]; simpl;
      rewrite ?andb_false_r; reflexivity. }
  rewrite Hc. reflexivity.
Qed.

(** C5. On every query, so on every non-empty one, and every list of cards
    that the catalog answers with, the search leaves at most five results,
    and each of them has the query, in lower case, inside the lower-case
    form of its card name or of its bank name. *)
Theorem search_results_match (query : jsstring) (cards : list Catalog.Card)
  (st : State) :
  let results :=
    searchResults (searchCards query (Catalog.Payload (Some cards)) st).1 in
  (length results <= 5)%nat
  /\ forall card, In card results ->
       (exists name, card_name card = Some name
          /\ includes (toLowerCase name) (toLowerCase query) = true)
       \/ (exists bank, bank_name card = Some bank
          /\ includes (toLowerCase bank) (toLowerCase query) = true).
Proof.
  unfold searchCards. destruct (negb (truthy (trim query))); simpl.
  - split; [lia|]. intros card [].
  - split.
    + rewrite length_map, length_take. lia.
    + intros card (raw & <- & Hraw)%List.in_map_iff.
      apply In_take in Hraw. apply List.filter_In in Hraw as [_ Hm].
      unfold matches in Hm. apply orb_prop in Hm as [Hm|Hm]; [left|right].
      * destruct (Catalog.card_name raw) as [name|] eqn:E; [|discriminate].
        exists name. simpl. auto.
      * destruct (Catalog.issuing_bank raw) as [bank|] eqn:E; [|discriminate].
        exists bank. simpl. auto.
Qed.

(** C6. On the empty query the search empties the result set and sends no
    request, whatever the catalog would have answered. *)
Theorem empty_query_clears (response : Catalog.Response) (st : State) :
  searchCards [] response st = (setSearchResults [] st, [])
  /\ searchResults (searchCards [] response st).1 = []
  /\ ~ In CatalogRequest (searchCards [] response st).2.
Proof. repeat split. intros []. Qed.

(** C9. A query of white space only is treated as the empty query is: the
    result set is emptied and no request is sent. *)
Theorem blank_query_clears (query : jsstring) (response : Catalog.Response)
  (st : State) :
  forallb is_white_space query = true ->
  searchCards query response st = searchCards [] response st
  /\ searchResults (searchCards query response st).1 = []
  /\ (searchCards query response st).2 = [].
Proof.
  intros Hblank. unfold searchCards. rewrite (trim_white query Hblank).
  repeat split.
Qed.

(** C10. The strings of [mockContent] are the same in two runs whose
    selected cards agree on name and bank name and whose audience and tone
    agree, whatever the platform, the language, the custom prompt and the
    rest of the two states are. *)
Theorem mockContent_depends_on (card1 card2 : CreditCard) (st1 st2 : State) :
  card_name card1 = card_name card2 ->
  bank_name card1 = bank_name card2 ->
  audience st1 = audience st2 ->
  tone st1 = tone st2 ->
  mockContent card1 st1 = mockContent card2 st2.
Proof.
  intros Hname Hbank Haudience Htone. unfold mockContent.
  rewrite Hname, Hbank, Haudience, Htone. reflexivity.
Qed.

(** *** The requests of a run *)

Lemma contentPromises_events be input index contents t :
  (contentPromises be input index contents t).2
  = imap (fun i content => InsertAIOutput (output_row input (index + i) content))
         contents.
Proof.
  revert index t. induction contents as [|content rest IH]; intros index t.
  - reflexivity.
  - cbn [contentPromises].
    destruct (outputError be index) as [error|];
      [|destruct (Db.insert_ai_output _ t) as [key t']];
      (match goal with
       | |- context [contentPromises be input (S index) rest ?t1] =>
           specialize (IH (S index) t1);
           destruct (contentPromises be input (S index) rest t1)
             as [[outcomes t2] events]
       end);
      simpl in *; rewrite IH, Nat.add_0_r; f_equal;
      apply imap_ext; intros i c _; simpl; f_equal; f_equal; lia.
Qed.

(** *** The tables only grow *)

Lemma fresh_unused {A : Type} (m : gmap Db.RowId A) : m !! fresh (dom m) = None.
Proof. apply not_elem_of_dom_1, is_fresh. Qed.

Lemma insert_fresh_grows {A : Type} (m : gmap Db.RowId A) (row : A) :
  m ⊆ <[fresh (dom m) := row]> m.
Proof. apply insert_subseteq, fresh_unused. Qed.

Lemma grows_refl t : grows t t.
Proof. split; reflexivity. Qed.

Lemma grows_trans t0 t1 t2 : grows t0 t1 -> grows t1 t2 -> grows t0 t2.
Proof. intros [? ?] [? ?]. split; etransitivity; eassumption. Qed.

Lemma insert_user_input_grows row t : grows t (Db.insert_user_input row t).2.
Proof. split; simpl; [apply insert_fresh_grows|reflexivity]. Qed.

Lemma insert_ai_output_grows row t : grows t (Db.insert_ai_output row t).2.
Proof. split; simpl; [reflexivity|apply insert_fresh_grows]. Qed.

Lemma contentPromises_grows be input index contents t :
  grows t (contentPromises be input index contents t).1.2.
Proof.
  revert index t. induction contents as [|content rest IH]; intros index t.
  - apply grows_refl.
  - cbn [contentPromises].
    destruct (outputError be index) as [error|].
    + specialize (IH (S index) t).
      destruct (contentPromises be input (S index) rest t)
        as [[outcomes t2] events]. exact IH.
    + pose proof (insert_ai_output_grows
                    (output_row input index content) t) as Hins.
      destruct (Db.insert_ai_output _ t) as [key t'].
      specialize (IH (S index) t').
      destruct (contentPromises be input (S index) rest t')
        as [[outcomes t2] events].
      exact (grows_trans _ _ _ Hins IH).
Qed.

Lemma attempt_grows be card st t : grows t (attempt be card st t).1.2.
Proof.
  unfold attempt. destruct (inputError be) as [error|]; [apply grows_refl|].
  pose proof (insert_user_input_grows (input_row card st) t) as Hins.
  destruct (Db.insert_user_input _ t) as [inputData t1].
  pose proof (contentPromises_grows be inputData 0 (mockContent card st) t1)
    as Hout.
  destruct (contentPromises be inputData 0 (mockContent card st) t1)
    as [[outcomes t2] events].
  exact (grows_trans _ _ _ Hins Hout).
Qed.

Lemma generateContent_grows be w : grows (db w) (db (generateContent be w).1).
Proof.
  unfold generateContent.
  destruct (selectedCard (ui w)) as [card|]; [|apply grows_refl].
  destruct (complete (ui w)); [|apply grows_refl].
  pose proof (attempt_grows be card (ui w) (db w)) as Hgrows.
  destruct (attempt be card (ui w) (db w)) as [[[error|results] t] events];
    exact Hgrows.
Qed.

Lemma step_grows a w : grows (db w) (db (step a w).1).
Proof.
  destruct a; simpl; try apply grows_refl.
  - destruct (searchCards _ _ _). apply grows_refl.
  - apply generateContent_grows.
Qed.

(** *** A run in which every insert succeeds *)

Lemma generateContent_success be w card :
  selectedCard (ui w) = Some card ->
  complete (ui w) = true ->
  inputError be = None ->
  (forall index, outputError be index = None) ->
  adds_batch card w (generateContent be w).1.
Proof.
  intros Hcard Hcomplete Hinput Houtput.
  assert (Hmock : exists c1 c2 c3 c4, mockContent card (ui w) = [c1; c2; c3; c4])
    by (unfold mockContent; eauto 10).
  destruct Hmock as (c1 & c2 & c3 & c4 & Hmock).
  unfold adds_batch, generateContent, attempt.
  rewrite Hcard, Hcomplete, Hinput, Hmock.
  cbn [contentPromises Db.insert_user_input Db.insert_ai_output].
  rewrite !Houtput.
  cbn [Db.user_inputs Db.ai_outputs all mbind exn_bind mret exn_ret
       fst snd ui db generatedContent setIsGenerating setGeneratedContent
       output_row N.of_nat].
  set (input := fresh (dom (Db.user_inputs (db w)))).
  set (m0 := Db.ai_outputs (db w)).
  set (o1 := fresh (dom m0)).
  set (m1 := <[o1 := output_row input 0 c1]> m0).
  set (o2 := fresh (dom m1)).
  set (m2 := <[o2 := output_row input 1 c2]> m1).
  set (o3 := fresh (dom m2)).
  set (m3 := <[o3 := output_row input 2 c3]> m2).
  set (o4 := fresh (dom m3)).
  pose proof (is_fresh (dom m0)) as Hf1.
  pose proof (is_fresh (dom m1)) as Hf2.
  pose proof (is_fresh (dom m2)) as Hf3.
  pose proof (is_fresh (dom m3)) as Hf4.
  fold o1 in Hf1. fold o2 in Hf2. fold o3 in Hf3. fold o4 in Hf4.
  unfold m3 in Hf4. unfold m2 in Hf3, Hf4. unfold m1 in Hf2, Hf3, Hf4.
  rewrite !dom_insert_L, !not_elem_of_union, !not_elem_of_singleton in Hf2.
  rewrite !dom_insert_L, !not_elem_of_union, !not_elem_of_singleton in Hf3.
  rewrite !dom_insert_L, !not_elem_of_union, !not_elem_of_singleton in Hf4.
  exists input, o1, o2, o3, o4, c1, c2, c3, c4.
  split; [reflexivity|]. split; [apply fresh_unused|].
  split; [reflexivity|]. split.
  { rewrite !NoDup_cons, !not_elem_of_cons.
    repeat split;
      first [apply not_elem_of_nil | apply NoDup_nil_2
            | intros Heq; rewrite Heq in *; tauto]. }
  split; [|split; reflexivity].
  intros o Ho. apply not_elem_of_dom_1. simpl in Ho.
  destruct Ho as [<-|[<-|[<-|[<-|[]]]]]; tauto.
Qed.

(** C7, as the code has it. A run that reaches the content step, the form
    being complete and the input row stored, sends nothing but inserts: the
    input row, and one output row for each string of [mockContent], the
    strings composed in the component itself, under the ordinals 1 to 4;
    the notice of failure follows when an insert of an output row fails. *)
Theorem content_is_composed_locally (be : Backend) (w : World)
  (card : CreditCard) :
  selectedCard (ui w) = Some card ->
  complete (ui w) = true ->
  inputError be = None ->
  let input := fresh (dom (Db.user_inputs (db w))) in
  exists notice,
    (generateContent be w).2
    = InsertUserInput (input_row card (ui w))
        :: imap (fun index content =>
                   InsertAIOutput (output_row input index content))
                (mockContent card (ui w))
        ++ notice
    /\ (notice = [] \/ notice = [generation_failed]).
Proof.
  intros Hcard Hcomplete Hinput input.
  unfold generateContent, attempt. rewrite Hcard, Hcomplete, Hinput.
  cbn [Db.insert_user_input]. fold input.
  match goal with
  | |- context [contentPromises be input 0 ?contents ?t1] =>
      pose proof (contentPromises_events be input 0 contents t1) as Hevents;
      destruct (contentPromises be input 0 contents t1)
        as [[outcomes t2] events]
  end.
  simpl in Hevents. subst events.
  destruct (all outcomes) as [error|results]; simpl.
  - exists [generation_failed]. split; [reflexivity|right; reflexivity].
  - exists []. split; [reflexivity|left; reflexivity].
Qed.

(** C8. A run of [generateContent] on a complete form in which every
    insert succeeds, which a regeneration with the fields as they were
    is, adds one row to [user_inputs] and four rows to [ai_outputs]
    that reference it under the ordinals 1 to 4, all under keys that were
    not in use; and whatever the user does, every row that was in the
    tables is still there afterwards, with the same columns. *)
Theorem regeneration_adds_a_batch :
  (forall (be : Backend) (w : World) (card : CreditCard),
     selectedCard (ui w) = Some card ->
     complete (ui w) = true ->
     inputError be = None ->
     (forall index, outputError be index = None) ->
     adds_batch card w (generateContent be w).1)
  /\ (forall (a : Action) (w : World),
        Db.user_inputs (db w) ⊆ Db.user_inputs (db (step a w).1)
        /\ Db.ai_outputs (db w) ⊆ Db.ai_outputs (db (step a w).1)).
Proof.
  split.
  - intros be w card. apply generateContent_success.
  - intros a w. apply step_grows.
Qed.

End WithRuntime.

(** *** A session *)

Example first_generation :
  List.map (fun row => Db.variation_number row.2) (generatedContent (ui generated))
  = [1; 2; 3; 4]
  /\ size (Db.user_inputs (db generated)) = 1%nat
  /\ size (Db.ai_outputs (db generated)) = 4%nat.
Proof. vm_compute. repeat split. Qed.

Example regeneration :
  let again := (@generateContent basic_latin reliable generated).1 in
  size (Db.user_inputs (db again)) = 2%nat
  /\ size (Db.ai_outputs (db again)) = 8%nat
  /\ List.map (fun row => Db.input_id row.2) (generatedContent (ui generated))
     = [Some 1; Some 1; Some 1; Some 1]%positive
  /\ List.map (fun row => Db.input_id row.2) (generatedContent (ui again))
     = [Some 2; Some 2; Some 2; Some 2]%positive.
Proof. vm_compute. repeat split. Qed.

Lemma incomplete_form_is_rejected_witness :
  (selectedCard (ui toneless) = None \/ platform (ui toneless) = []
   \/ audience (ui toneless) = [] \/ language (ui toneless) = []
   \/ tone (ui toneless) = [])
  /\ @generateContent basic_latin reliable toneless
     = (toneless, [missing_information]).
Proof.
  assert (Hunset : selectedCard (ui toneless) = None
                   \/ platform (ui toneless) = []
                   \/ audience (ui toneless) = []
                   \/ language (ui toneless) = []
                   \/ tone (ui toneless) = [])
    by (do 4 right; reflexivity).
  split; [exact Hunset|].
  exact (@incomplete_form_is_rejected basic_latin reliable toneless Hunset).
Defined.

Example search_finds_the_card :
  searchResults (@searchCards basic_latin (lit "BAN") catalog (ui filled)).1
  = [sample_card]
  /\ (@searchCards basic_latin (lit "BAN") catalog (ui filled)).2
     = [CatalogRequest].
Proof. vm_compute. split; reflexivity. Qed.

Lemma blank_query_clears_witness :
  forallb is_white_space blank = true
  /\ @searchCards basic_latin blank catalog (ui filled)
     = @searchCards basic_latin [] catalog (ui filled)
  /\ searchResults (@searchCards basic_latin blank catalog (ui filled)).1 = []
  /\ (@searchCards basic_latin blank catalog (ui filled)).2 = [].
Proof.
  assert (Hblank : forallb is_white_space blank = true) by reflexivity.
  split; [exact Hblank|].
  exact (@blank_query_clears basic_latin blank catalog (ui filled) Hblank).
Defined.

Lemma mockContent_depends_on_witness :
  card_name sample_card = card_name sample_card
  /\ bank_name sample_card = bank_name sample_card
  /\ audience (ui filled) = audience elsewhere
  /\ tone (ui filled) = tone elsewhere
  /\ platform (ui filled) <> platform elsewhere
  /\ language (ui filled) <> language elsewhere
  /\ customPrompt (ui filled) <> customPrompt elsewhere
  /\ @mockContent basic_latin sample_card (ui filled)
     = @mockContent basic_latin sample_card elsewhere.
Proof.
  repeat (split; [first [reflexivity | vm_compute; discriminate]|]).
  exact (@mockContent_depends_on basic_latin sample_card sample_card
           (ui filled) elsewhere eq_refl eq_refl eq_refl eq_refl).
Defined.

Lemma content_is_composed_locally_witness :
  selectedCard (ui filled) = Some sample_card
  /\ complete (ui filled) = true
  /\ inputError reliable = None
  /\ exists notice,
       (@generateContent basic_latin reliable filled).2
       = InsertUserInput (input_row sample_card (ui filled))
           :: imap (fun index content =>
                      InsertAIOutput
                        (output_row (fresh (dom (Db.user_inputs (db filled))))
                                    index content))
                   (@mockContent basic_latin sample_card (ui filled))
           ++ notice
       /\ (notice = [] \/ notice = [generation_failed]).
Proof.
  split; [reflexivity|]. split; [reflexivity|]. split; [reflexivity|].
  exact (@content_is_composed_locally basic_latin reliable filled sample_card
           eq_refl eq_refl eq_refl).
Defined.

Lemma regeneration_adds_a_batch_witness :
  selectedCard (ui generated) = Some sample_card
  /\ complete (ui generated) = true
  /\ inputError reliable = None
  /\ (forall index, outputError reliable index = None)
  /\ generatedContent (ui generated) <> []
  /\ @adds_batch basic_latin sample_card generated
       (@generateContent basic_latin reliable generated).1.
Proof.
  split; [reflexivity|]. split; [reflexivity|]. split; [reflexivity|].
  split; [intros index; reflexivity|].
  split; [vm_compute; discriminate|].
  exact (proj1 (@regeneration_adds_a_batch basic_latin) reliable generated
           sample_card eq_refl eq_refl eq_refl (fun _ => eq_refl)).
Defined.

(** C7 as the specification words it fails on the filled form: the run
    reaches the content step, the first string it stores ends in a space,
    and the proxy, whose strings are trimmed segments or the fallback,
    returns that array of strings on no request and from no answer of the
    generative API. *)
Lemma stored_content_is_not_from_the_proxy :
  (@generateContent basic_latin reliable filled).2
  = [ InsertUserInput (input_row sample_card (ui filled));
      InsertAIOutput
        (output_row 1 0
           (direct_hit ++ lit " Exclusive Card offer! Perfect for friends. "));
      InsertAIOutput
        (output_row 1 1
           (lit "Looking for a great credit card? The Card from Bank is exactly what you need!"));
      InsertAIOutput
        (output_row 1 2
           (lit "Hey there! Just discovered the amazing benefits of Card. Worth checking out!"));
      InsertAIOutput
        (output_row 1 3
           (lit "Card review: This card offers incredible value. Here's why it's perfect for your needs...")) ]
  /\ forall env req,
       Proxy.body (@Proxy.serve basic_latin env req)
       <> Proxy.VariationsBody
            (List.map (fun row => Db.content_variation row.2)
                      (generatedContent (ui generated))).
Proof.
  split; [vm_compute; reflexivity|].
  intros env req Hbody.
  apply ProxyFacts.serve_variations in Hbody as (r & text & Hvs).
  pose proof (@ProxyFacts.variations_trimmed basic_latin r text) as Htrimmed.
  rewrite <- Hvs in Htrimmed.
  apply Forall_inv in Htrimmed as [_ (front & c & Hlast & Hclean)].
  change (direct_hit ++ lit " Exclusive Card offer! Perfect for friends."
            ++ [32] = front ++ [c]) in Hlast.
  rewrite app_assoc in Hlast.
  apply app_inj_tail in Hlast as [_ <-]. discriminate.
Qed.

End ClientFacts.
(** * Further properties *)

(** ** Splitting and trimming *)

Module SplitFacts.

Lemma split_loop_cons cur c r :
  split_loop cur (c :: r)
  = match match_separator (c :: r) with
    | Some rest => cur :: split_loop [] rest
    | None => split_loop (cur ++ [c]) r
    end.
Proof.
  funelim (split_loop cur (c :: r)).
  - rewrite Hm. reflexivity.
  - match goal with Hn : match_separator _ = None |- _ => rewrite Hn end.
    reflexivity.
Qed.

Lemma split_loop_nil cur : split_loop cur [] = [cur].
Proof. simp split_loop. reflexivity. Qed.

Lemma skip_digits_suffix s : exists digits, s = digits ++ skip_digits s.
Proof.
  induction s as [|c r [digits IH]]; simpl.
  - exists []. reflexivity.
  - destruct (is_digit c).
    + exists (c :: digits). simpl. f_equal. exact IH.
    + exists []. reflexivity.
Qed.

(** A match of the separator takes a non-empty front off the string. *)
Lemma match_separator_suffix s rest :
  match_separator s = Some rest ->
  exists sep, s = sep ++ rest /\ sep <> [].
Proof.
  destruct s as [|c r]; simpl; [discriminate|].
  destruct (is_digit c); [|discriminate].
  destruct (skip_digits_suffix r) as [digits Hr].
  destruct (skip_digits r) as [|d rest']; [discriminate|].
  destruct (is_dot d); [|discriminate].
  intros [= <-]. exists (c :: digits ++ [d]). split; [|discriminate].
  simpl. f_equal. rewrite <- app_assoc. exact Hr.
Qed.

Lemma match_separator_digit c r :
  is_digit c = false -> match_separator (c :: r) = None.
Proof. intros Hc. simpl. rewrite Hc. reflexivity. Qed.

(** Every piece of the loop is [cur] with a front of [s] behind it, or lies
    inside [s]. *)
Lemma split_loop_pieces s :
  forall cur piece,
    In piece (split_loop cur s) ->
    (exists front back, s = front ++ back /\ piece = cur ++ front)
    \/ infix piece s.
Proof.
  induction s as [s IH] using (induction_ltof1 _ (@length code_unit)).
  unfold ltof in IH. intros cur piece.
  destruct s as [|c r].
  - rewrite split_loop_nil. intros [<-|[]].
    left. exists [], []. split; [reflexivity|]. symmetry. apply app_nil_r.
  - rewrite split_loop_cons.
    destruct (match_separator (c :: r)) as [rest|] eqn:Hm.
    + destruct (match_separator_suffix _ _ Hm) as (sep & Hs & Hsep).
      intros [<-|Hin].
      * left. exists [], (c :: r). split; [reflexivity|].
        symmetry. apply app_nil_r.
      * right.
        assert (Hlt : (length rest < length (c :: r))%nat).
        { rewrite Hs, length_app. destruct sep; [contradiction|simpl; lia]. }
        destruct (IH rest Hlt [] piece Hin)
          as [(front & back & -> & ->)|(front & back & ->)].
        -- exists sep, back. rewrite Hs. reflexivity.
        -- exists (sep ++ front), back. rewrite Hs, <- app_assoc. reflexivity.
    + intros Hin.
      destruct (IH r ltac:(simpl; lia) (cur ++ [c]) piece Hin)
        as [(front & back & -> & ->)|(front & back & ->)].
      * left. exists (c :: front), back. rewrite <- app_assoc.
        split; reflexivity.
      * right. exists (c :: front), back. reflexivity.
Qed.

Lemma split_pieces s piece : In piece (split s) -> infix piece s.
Proof.
  intros Hin. destruct (split_loop_pieces s [] piece Hin)
    as [(front & back & -> & ->)|Hinfix]; [|exact Hinfix].
  exists [], back. reflexivity.
Qed.

Lemma trimStart_suffix s : exists front, s = front ++ trimStart s.
Proof.
  induction s as [|c r [front IH]]; simpl.
  - exists []. reflexivity.
  - destruct (is_white_space c).
    + exists (c :: front). simpl. f_equal. exact IH.
    + exists []. reflexivity.
Qed.

Lemma trimEnd_prefix s : exists back, s = trimEnd s ++ back.
Proof.
  unfold trimEnd. destruct (trimStart_suffix (rev s)) as [front Hs].
  exists (rev front). rewrite <- rev_app_distr, <- Hs, rev_involutive.
  reflexivity.
Qed.

Lemma trim_infix s : infix (trim s) s.
Proof.
  unfold trim. destruct (trimStart_suffix s) as [front Hs].
  destruct (trimEnd_prefix (trimStart s)) as [back Ht].
  exists front, back. rewrite <- Ht. exact Hs.
Qed.

Lemma infix_trans a b c : infix a b -> infix b c -> infix a c.
Proof.
  intros (f1 & b1 & ->) (f2 & b2 & ->).
  exists (f2 ++ f1), (b1 ++ b2). rewrite <- !app_assoc. reflexivity.
Qed.

(** [trimStart] leaves a string alone that does not start with white
    space. *)
Lemma trimStart_fixed s :
  (forall c r, s = c :: r -> is_white_space c = false) -> trimStart s = s.
Proof.
  destruct s as [|c r]; [reflexivity|]. intros Hs. simpl.
  rewrite (Hs c r eq_refl). reflexivity.
Qed.

Lemma trimStart_idem s : trimStart (trimStart s) = trimStart s.
Proof.
  apply trimStart_fixed. intros c r Hs. exact (trimStart_head _ _ _ Hs).
Qed.

Lemma trimStart_snoc s c :
  is_white_space c = false -> trimStart (s ++ [c]) = trimStart s ++ [c].
Proof.
  intros Hc. induction s as [|a s IH]; simpl.
  - rewrite Hc. reflexivity.
  - destruct (is_white_space a); [exact IH|reflexivity].
Qed.

Lemma trimEnd_idem s : trimEnd (trimEnd s) = trimEnd s.
Proof.
  unfold trimEnd. rewrite rev_involutive, trimStart_idem. reflexivity.
Qed.

(** What [trimEnd] leaves of a string that starts clean still starts
    clean. *)
Lemma trimStart_trimEnd s :
  trimStart s = s -> trimStart (trimEnd s) = trimEnd s.
Proof.
  intros Hs. destruct s as [|c r]; [reflexivity|].
  assert (Hc : is_white_space c = false).
  { simpl in Hs. destruct (is_white_space c) eqn:E; [|reflexivity].
    pose proof (trimStart_suffix r) as [front Hr].
    rewrite Hs in Hr. apply (f_equal (@length _)) in Hr.
    rewrite length_app in Hr. simpl in Hr. lia. }
  unfold trimEnd. simpl rev. rewrite (trimStart_snoc _ _ Hc).
  rewrite rev_app_distr. simpl. rewrite Hc. reflexivity.
Qed.

Lemma trim_idem s : trim (trim s) = trim s.
Proof.
  unfold trim.
  rewrite (trimStart_trimEnd (trimStart s) (trimStart_idem s)).
  apply trimEnd_idem.
Qed.

Lemma has_separator_none cur s :
  has_separator s = false -> split_loop cur s = [cur ++ s].
Proof.
  revert cur. induction s as [|c r IH]; intros cur Hs.
  - rewrite split_loop_nil, app_nil_r. reflexivity.
  - cbn [has_separator] in Hs. apply orb_false_elim in Hs as [Hm Hr].
    rewrite split_loop_cons.
    destruct (match_separator (c :: r)); [discriminate|].
    rewrite (IH (cur ++ [c]) Hr), <- app_assoc. reflexivity.
Qed.

End SplitFacts.

(** ** The content proxy, further *)

Module ProxyExtra.
Import Proxy SplitFacts.

Section WithRuntime.

Context `{Runtime}.

(** X1. Every segment kept from the answer of the generative API is free of
    white space at both ends: [trim] leaves it as it is. *)
Theorem segments_are_trimmed (text : jsstring) :
  Forall (fun v => trim v = v) (segments text).
Proof.
  unfold segments. apply Forall_take. apply List.Forall_map.
  apply List.Forall_forall. intros piece _. apply trim_idem.
Qed.

(** X2. Every segment kept is a contiguous part of the answer: the proxy
    passes text of the generative API on and writes none of its own
    into a segment. *)
Theorem segments_are_quoted (text : jsstring) :
  Forall (fun v => infix v text) (segments text).
Proof.
  unfold segments. apply Forall_take. apply List.Forall_map.
  apply List.Forall_forall. intros piece [Hpiece _]%List.filter_In.
  exact (infix_trans _ _ _ (trim_infix piece) (split_pieces _ _ Hpiece)).
Qed.

(** X3. The kept segments come first, in the order of the answer, and only
    the places that are left are filled, each with the same fallback. *)
Theorem variations_decompose (r : ContentRequest) (text : jsstring) :
  variations r text
  = segments text ++ replicate (4 - length (segments text)) (fallback r).
Proof. unfold variations. apply ProxyFacts.pad_replicate. Qed.

(** X4. An answer that holds four segments decides the result alone: the card
    name, the bank name and the audience of the request play no part. *)
Theorem four_segments_ignore_request (r r' : ContentRequest) (text : jsstring) :
  length (segments text) = 4%nat ->
  variations r text = segments text /\ variations r text = variations r' text.
Proof.
  intros Hfour. unfold variations.
  rewrite !ProxyFacts.pad_replicate, Hfour. simpl.
  rewrite app_nil_r. split; reflexivity.
Qed.

(** X5. An answer without any numbered marker is one segment: the result is
    the trimmed answer followed by three fallbacks, or four fallbacks when
    the answer is blank. *)
Theorem unnumbered_answer (r : ContentRequest) (text : jsstring) :
  has_separator text = false ->
  variations r text
  = if truthy (trim text)
    then [trim text; fallback r; fallback r; fallback r]
    else [fallback r; fallback r; fallback r; fallback r].
Proof.
  intros Hnone. unfold variations. rewrite ProxyFacts.pad_replicate.
  unfold segments, split. rewrite (has_separator_none [] text Hnone).
  simpl. destruct (truthy (trim text)); reflexivity.
Qed.

(** X6. A body of variations is sent only with status 200 and the JSON
    headers, only on a request that is not a preflight, only when a
    credential is configured, and it always holds four non-empty
    strings. *)
Theorem variations_response (env : Env) (req : Request) (vs : list jsstring) :
  body (serve env req) = VariationsBody vs ->
  status (serve env req) = 200
  /\ headers (serve env req) = jsonHeaders
  /\ method req <> lit "OPTIONS"
  /\ (exists key, GEMINI_API_KEY env = Some key /\ key <> [])
  /\ length vs = 4%nat
  /\ Forall (fun v => v <> []) vs.
Proof.
  intros Hbody.
  destruct (ProxyFacts.serve_variations env req vs Hbody) as (r & text & ->).
  revert Hbody. unfold serve.
  destruct (decide (method req = lit "OPTIONS")) as [|Hmethod]; [discriminate|].
  destruct (attempt env req) as [message|sent] eqn:Eattempt; [discriminate|].
  intros _. simpl.
  split; [reflexivity|]. split; [reflexivity|]. split; [exact Hmethod|].
  split; [|split].
  - revert Eattempt. unfold attempt, mbind, exn_bind, mret, exn_ret, throw.
    destruct (json req) as [message|parsed]; [discriminate|].
    destruct (GEMINI_API_KEY env) as [[|c key]|]; simpl; try discriminate.
    intros _. exists (c :: key). split; [reflexivity|discriminate].
  - apply ProxyFacts.variations_length.
  - eapply Forall_impl; [apply ProxyFacts.variations_trimmed|].
    intros v [Hv _]. exact Hv.
Qed.

(** X7. The generative API is asked only on a request that is not a preflight,
    whose body could be read, and with a credential: in every other case
    the response is the same whatever the API would answer. *)
Theorem upstream_is_not_asked (key : option jsstring)
  (gemini1 gemini2 : jsstring -> jsstring -> Upstream) (req : Request) :
  method req = lit "OPTIONS"
    \/ (exists message, json req = inl message)
    \/ key = None \/ key = Some [] ->
  serve {| GEMINI_API_KEY := key; gemini := gemini1 |} req
  = serve {| GEMINI_API_KEY := key; gemini := gemini2 |} req.
Proof.
  intros Hcase. unfold serve.
  destruct (decide (method req = lit "OPTIONS")) as [|Hmethod]; [reflexivity|].
  unfold attempt, mbind, exn_bind, mret, exn_ret, throw. simpl.
  destruct Hcase as [Hm|[[message Hjson]|[-> | ->]]].
  - contradiction.
  - rewrite Hjson. reflexivity.
  - destruct (json req); reflexivity.
  - destruct (json req); reflexivity.
Qed.

(** X8. An answer of the generative API with a status outside 200 to 299 gives
    the response 500 whose message names that status; what the answer
    carries, text included, is not used. *)
Theorem upstream_status_is_reported (env : Env) (req : Request)
  (r : ContentRequest) (key : jsstring) (st : N) (payload : UpstreamBody) :
  method req <> lit "OPTIONS" ->
  json req = inr r ->
  GEMINI_API_KEY env = Some key ->
  key <> [] ->
  gemini env key (prompt r) = Responded st payload ->
  st < 200 \/ 299 < st ->
  serve env req
  = {| status := 500; headers := jsonHeaders;
       body := ErrorBody (lit "Gemini API error: " ++ number_to_string st) |}.
Proof.
  intros Hmethod Hjson Hkey Hk Hgemini Hst. unfold serve.
  destruct (decide (method req = lit "OPTIONS")); [contradiction|].
  unfold attempt, mbind, exn_bind, mret, exn_ret, throw.
  rewrite Hjson, Hkey. destruct key as [|c key]; [contradiction|]. simpl.
  rewrite Hgemini.
  assert (Hok : ok st = false).
  { unfold ok. destruct Hst as [Hlow|Hhigh].
    - apply andb_false_intro1. apply N.leb_gt. exact Hlow.
    - apply andb_false_intro2. apply N.leb_gt. exact Hhigh. }
  rewrite Hok. reflexivity.
Qed.

End WithRuntime.

Example answer_without_marker :
  has_separator (lit "Get 5% cashback, today") = false.
Proof. reflexivity. Qed.

Lemma four_segments_ignore_request_witness :
  length (segments (lit "1. a 2. b 3. c 4. d")) = 4%nat
  /\ @variations basic_latin sample_request (lit "1. a 2. b 3. c 4. d")
     = segments (lit "1. a 2. b 3. c 4. d")
  /\ @variations basic_latin sample_request (lit "1. a 2. b 3. c 4. d")
     = @variations basic_latin other_request (lit "1. a 2. b 3. c 4. d").
Proof.
  assert (Hfour : length (segments (lit "1. a 2. b 3. c 4. d")) = 4%nat)
    by (vm_compute; reflexivity).
  split; [exact Hfour|].
  exact (@four_segments_ignore_request basic_latin sample_request
           other_request (lit "1. a 2. b 3. c 4. d") Hfour).
Defined.

Lemma unnumbered_answer_witness :
  has_separator (lit "Get 5% cashback, today") = false
  /\ @variations basic_latin sample_request (lit "Get 5% cashback, today")
     = if truthy (trim (lit "Get 5% cashback, today"))
       then [ trim (lit "Get 5% cashback, today");
              @fallback basic_latin sample_request;
              @fallback basic_latin sample_request;
              @fallback basic_latin sample_request ]
       else [ @fallback basic_latin sample_request;
              @fallback basic_latin sample_request;
              @fallback basic_latin sample_request;
              @fallback basic_latin sample_request ].
Proof.
  assert (Hnone : has_separator (lit "Get 5% cashback, today") = false)
    by reflexivity.
  split; [exact Hnone|].
  exact (@unnumbered_answer basic_latin sample_request
           (lit "Get 5% cashback, today") Hnone).
Defined.

Lemma variations_response_witness :
  body (@serve basic_latin working post)
  = VariationsBody [lit "a"; lit "b"; lit "c"; lit "d"]
  /\ status (@serve basic_latin working post) = 200
  /\ headers (@serve basic_latin working post) = jsonHeaders
  /\ method post <> lit "OPTIONS"
  /\ (exists key, GEMINI_API_KEY working = Some key /\ key <> [])
  /\ length [lit "a"; lit "b"; lit "c"; lit "d"] = 4%nat
  /\ Forall (fun v => v <> []) [lit "a"; lit "b"; lit "c"; lit "d"].
Proof.
  assert (Hbody : body (@serve basic_latin working post)
                  = VariationsBody [lit "a"; lit "b"; lit "c"; lit "d"])
    by (vm_compute; reflexivity).
  split; [exact Hbody|].
  exact (@variations_response basic_latin working post _ Hbody).
Defined.

Lemma upstream_is_not_asked_witness :
  (method post = lit "OPTIONS"
   \/ (exists message, json post = inl message)
   \/ @None jsstring = None \/ @None jsstring = Some [])
  /\ @serve basic_latin
       {| GEMINI_API_KEY := None; gemini := gemini working |} post
     = @serve basic_latin
         {| GEMINI_API_KEY := None; gemini := gemini not_found |} post.
Proof.
  assert (Hcase : method post = lit "OPTIONS"
                  \/ (exists message, json post = inl message)
                  \/ @None jsstring = None \/ @None jsstring = Some [])
    by (right; right; left; reflexivity).
  split; [exact Hcase|].
  exact (@upstream_is_not_asked basic_latin None (gemini working)
           (gemini not_found) post Hcase).
Defined.

Lemma upstream_status_is_reported_witness :
  method post <> lit "OPTIONS"
  /\ json post = inr sample_request
  /\ GEMINI_API_KEY not_found = Some (lit "key")
  /\ lit "key" <> []
  /\ gemini not_found (lit "key") (prompt sample_request)
     = Responded 404 (GeneratedText (lit "1. a"))
  /\ (404 < 200 \/ 299 < 404)
  /\ @serve basic_latin not_found post
     = {| status := 500; headers := jsonHeaders;
          body := ErrorBody (lit "Gemini API error: 404") |}.
Proof.
  assert (Hmethod : method post <> lit "OPTIONS") by (vm_compute; discriminate).
  assert (Hkey : lit "key" <> []) by (vm_compute; discriminate).
  assert (Hst : 404 < 200 \/ 299 < 404) by (right; reflexivity).
  split; [exact Hmethod|]. split; [reflexivity|]. split; [reflexivity|].
  split; [exact Hkey|]. split; [reflexivity|]. split; [exact Hst|].
  exact (@upstream_status_is_reported basic_latin not_found post
           sample_request (lit "key") 404 (GeneratedText (lit "1. a"))
           Hmethod eq_refl eq_refl Hkey eq_refl Hst).
Defined.

End ProxyExtra.

(** ** The component, further *)

Module ClientExtra.
Import Client SplitFacts.

Section WithRuntime.

Context `{Runtime}.

Lemma contentPromises_stored be input index contents t :
  stored be input index contents t
    (contentPromises be input index contents t).1.1
    (contentPromises be input index contents t).1.2.
Proof.
  revert index t. induction contents as [|content rest IH]; intros index t.
  - apply stored_nil.
  - cbn [contentPromises].
    destruct (outputError be index) as [error|] eqn:Eerror.
    + specialize (IH (S index) t).
      destruct (contentPromises be input (S index) rest t)
        as [[outcomes t2] events].
      simpl in *. apply stored_error; assumption.
    + pose proof (stored_row be input index content rest t) as Hrow.
      destruct (Db.insert_ai_output (output_row input index content) t)
        as [key t1].
      specialize (IH (S index) t1).
      destruct (contentPromises be input (S index) rest t1)
        as [[outcomes t2] events].
      simpl in *. apply Hrow; assumption.
Qed.

Lemma stored_grows be input index contents t outcomes t' :
  stored be input index contents t outcomes t' ->
  Db.user_inputs t' = Db.user_inputs t /\ Db.ai_outputs t ⊆ Db.ai_outputs t'.
Proof.
  induction 1 as [index t|index content rest t error outcomes t' _ _ IH
                 |index content rest t outcomes t' _ _ [IHu IHo]].
  - split; reflexivity.
  - exact IH.
  - split; [exact IHu|].
    etransitivity; [|exact IHo]. simpl. apply ClientFacts.insert_fresh_grows.
Qed.

Lemma stored_rows_kept be input index contents t outcomes t' :
  stored be input index contents t outcomes t' ->
  forall shown, In (inr shown) outcomes ->
    Db.ai_outputs t' !! shown.1 = Some shown.2.
Proof.
  induction 1 as [index t|index content rest t error outcomes t' _ _ IH
                 |index content rest t outcomes t' _ Hrest IH];
    intros shown Hin.
  - destruct Hin.
  - destruct Hin as [Heq|Hin]; [discriminate|]. apply IH. exact Hin.
  - destruct Hin as [Heq|Hin]; [|apply IH; exact Hin].
    injection Heq as <-. simpl.
    apply stored_grows in Hrest as [_ Hsub].
    eapply lookup_weaken; [|exact Hsub]. simpl. apply lookup_insert_eq.
Qed.

Lemma all_inr {A : Type} (promises : list (Exn A)) (values : list A) :
  all promises = inr values -> promises = List.map inr values.
Proof.
  revert values. induction promises as [|p rest IH]; intros values.
  - intros [= <-]. reflexivity.
  - cbn [all]. unfold mbind, exn_bind, mret, exn_ret.
    destruct p as [error|x]; [discriminate|].
    destruct (all rest) as [error|xs]; [discriminate|].
    intros [= <-]. simpl. f_equal. apply IH. reflexivity.
Qed.

Lemma all_inl {A : Type} (promises : list (Exn A)) (error : jsstring) :
  In (inl error) promises -> exists thrown, all promises = inl thrown.
Proof.
  induction promises as [|p rest IH]; [intros []|].
  cbn [all]. unfold mbind, exn_bind, mret, exn_ret.
  destruct p as [e|x]; [eexists; reflexivity|].
  intros [Heq|Hin]; [discriminate|].
  destruct (IH Hin) as [thrown ->]. eexists. reflexivity.
Qed.

Lemma stored_failure be input index contents t outcomes t' :
  stored be input index contents t outcomes t' ->
  forall j error,
    (index <= j < index + length contents)%nat ->
    outputError be j = Some error ->
    In (inl error) outcomes.
Proof.
  induction 1 as [index t|index content rest t e outcomes t' He _ IH
                 |index content rest t outcomes t' Hok _ IH];
    intros j error Hj Herror; simpl in Hj.
  - lia.
  - destruct (decide (j = index)) as [->|Hne].
    + left. congruence.
    + right. apply (IH j error); [lia|exact Herror].
  - destruct (decide (j = index)) as [->|Hne]; [congruence|].
    right. apply (IH j error); [lia|exact Herror].
Qed.

Lemma stored_outcome_rows be input index contents t outcomes t' :
  stored be input index contents t outcomes t' ->
  forall results, outcomes = List.map inr results ->
    List.map snd results
    = imap (fun i content => output_row input (index + i) content) contents.
Proof.
  induction 1 as [index t|index content rest t e outcomes t' _ _ IH
                 |index content rest t outcomes t' _ _ IH];
    intros results Hresults.
  - destruct results; [reflexivity|discriminate].
  - destruct results; discriminate.
  - destruct results as [|shown results]; [discriminate|].
    injection Hresults as <- Hrest. simpl.
    rewrite Nat.add_0_r. f_equal. rewrite (IH results Hrest).
    apply imap_ext. intros i c _. simpl. f_equal. lia.
Qed.

(** *** The run of [generateContent] on a complete form *)

Lemma mockContent_length card st : length (mockContent card st) = 4%nat.
Proof. reflexivity. Qed.

Lemma generateContent_stored be w card :
  selectedCard (ui w) = Some card ->
  complete (ui w) = true ->
  inputError be = None ->
  exists outcomes t' events,
    stored be (fresh (dom (Db.user_inputs (db w)))) 0
      (mockContent card (ui w))
      (Db.insert_user_input (input_row card (ui w)) (db w)).2 outcomes t'
    /\ generateContent be w
       = match all outcomes with
         | inr results =>
             ({| ui := setIsGenerating false
                         (setGeneratedContent results (ui w));
                 db := t' |}, events)
         | inl _ =>
             ({| ui := setIsGenerating false (ui w); db := t' |},
              events ++ [generation_failed])
         end.
Proof.
  intros Hcard Hcomplete Hinput.
  unfold generateContent, attempt. rewrite Hcard, Hcomplete, Hinput.
  cbn [Db.insert_user_input snd].
  match goal with
  | |- context [contentPromises be ?input 0 ?contents ?t1] =>
      pose proof (contentPromises_stored be input 0 contents t1) as Hstored;
      destruct (contentPromises be input 0 contents t1)
        as [[outcomes t2] events]
  end.
  simpl in Hstored. eexists outcomes, t2, _. split; [exact Hstored|].
  destruct (all outcomes); reflexivity.
Qed.

Lemma generateContent_unsent be w card error :
  selectedCard (ui w) = Some card ->
  complete (ui w) = true ->
  inputError be = Some error ->
  generateContent be w
  = ({| ui := setIsGenerating false (ui w); db := db w |},
     [InsertUserInput (input_row card (ui w)); generation_failed]).
Proof.
  intros Hcard Hcomplete Hinput.
  unfold generateContent, attempt. rewrite Hcard, Hcomplete, Hinput.
  reflexivity.
Qed.

Lemma generateContent_incomplete be w :
  selectedCard (ui w) = None \/ complete (ui w) = false ->
  generateContent be w = (w, [missing_information]).
Proof.
  intros Hcase. unfold generateContent.
  destruct (selectedCard (ui w)) as [card|] eqn:Ecard; [|reflexivity].
  destruct Hcase as [Hnone|Hfalse]; [discriminate|].
  rewrite Hfalse. reflexivity.
Qed.

(** *** The batches *)

Lemma filling_weaken input n m t :
  (n <= m)%nat -> filling input n t -> filling input m t.
Proof.
  intros Hnm (Hbatches & Hinput & Hbound).
  split; [exact Hbatches|]. split; [exact Hinput|].
  intros k row Hk Hrow. specialize (Hbound k row Hk Hrow). lia.
Qed.

Lemma filling_insert input index content t :
  (index < 4)%nat ->
  filling input index t ->
  filling input (S index)
    (Db.insert_ai_output (output_row input index content) t).2.
Proof.
  intros Hindex [[Href [Hrange Huniq]] [Hinput Hbound]].
  unfold filling, batches_hold, references_hold, ordinals_hold.
  cbn [Db.insert_ai_output snd Db.ai_outputs Db.user_inputs].
  set (key := fresh (dom (Db.ai_outputs t))).
  set (new := output_row input index content).
  assert (Hnew : Db.input_id new = Some input
                 /\ Db.variation_number new = N.of_nat index + 1)
    by (split; reflexivity).
  destruct Hnew as [Hnew_input Hnew_ordinal]. clearbody new key.
  split; [split; [|split]|split].
  - intros k row [[<- <-]|[_ Hk]]%lookup_insert_Some.
    + exists input. split; assumption.
    + exact (Href k row Hk).
  - intros k row [[_ <-]|[_ Hk]]%lookup_insert_Some.
    + lia.
    + exact (Hrange k row Hk).
  - intros k1 k2 row1 row2
      [[<- <-]|[Hk1 Hrow1]]%lookup_insert_Some
      [[<- <-]|[Hk2 Hrow2]]%lookup_insert_Some Hsame Hordinal.
    + reflexivity.
    + rewrite Hnew_input in Hsame. symmetry in Hsame.
      specialize (Hbound k2 row2 Hrow2 Hsame). lia.
    + rewrite Hnew_input in Hsame.
      specialize (Hbound k1 row1 Hrow1 Hsame). lia.
    + exact (Huniq k1 k2 row1 row2 Hrow1 Hrow2 Hsame Hordinal).
  - exact Hinput.
  - intros k row [[_ <-]|[_ Hk]]%lookup_insert_Some Hrow.
    + lia.
    + specialize (Hbound k row Hk Hrow). lia.
Qed.

Lemma stored_filling be input index contents t outcomes t' :
  stored be input index contents t outcomes t' ->
  (index + length contents <= 4)%nat ->
  filling input index t ->
  filling input (index + length contents) t'.
Proof.
  induction 1 as [index t|index content rest t e outcomes t' _ _ IH
                 |index content rest t outcomes t' _ _ IH];
    simpl; intros Hlen Hfilling.
  - rewrite Nat.add_0_r. exact Hfilling.
  - replace (index + S (length rest))%nat
      with (S index + length rest)%nat by lia.
    apply IH; [lia|]. apply (filling_weaken input index); [lia|exact Hfilling].
  - replace (index + S (length rest))%nat
      with (S index + length rest)%nat by lia.
    apply IH; [lia|]. apply filling_insert; [lia|exact Hfilling].
Qed.

Lemma filling_starts row t :
  batches_hold t ->
  filling (fresh (dom (Db.user_inputs t))) 0 (Db.insert_user_input row t).2.
Proof.
  intros [Href Hord].
  pose proof (ClientFacts.fresh_unused (Db.user_inputs t)) as Hfresh.
  unfold filling, batches_hold, references_hold.
  cbn [Db.insert_user_input snd Db.ai_outputs Db.user_inputs].
  set (input := fresh (dom (Db.user_inputs t))) in *. clearbody input.
  split; [split; [|exact Hord]|split].
  - intros k shown Hk. destruct (Href k shown Hk) as (i & Hi & Hsome).
    exists i. split; [exact Hi|].
    rewrite lookup_insert_is_Some. right.
    split; [|exact Hsome]. intros <-. rewrite Hfresh in Hsome.
    destruct Hsome as [? Hnone]. discriminate.
  - rewrite lookup_insert_eq. eexists. reflexivity.
  - intros k shown Hk Hinput.
    destruct (Href k shown Hk) as (i & Hi & Hsome).
    rewrite Hinput in Hi. injection Hi as <-. rewrite Hfresh in Hsome.
    destruct Hsome as [? Hnone]. discriminate.
Qed.

Lemma generateContent_batches be w :
  batches_hold (db w) -> batches_hold (db (generateContent be w).1).
Proof.
  intros Hbatches.
  destruct (selectedCard (ui w)) as [card|] eqn:Ecard;
    [|rewrite generateContent_incomplete by (left; exact Ecard);
      exact Hbatches].
  destruct (complete (ui w)) eqn:Ecomplete;
    [|rewrite generateContent_incomplete by (right; exact Ecomplete);
      exact Hbatches].
  destruct (inputError be) as [error|] eqn:Einput.
  - rewrite (generateContent_unsent be w card error Ecard Ecomplete Einput).
    exact Hbatches.
  - destruct (generateContent_stored be w card Ecard Ecomplete Einput)
      as (outcomes & t' & events & Hstored & ->).
    apply stored_filling in Hstored as [Hdone _];
      [|rewrite mockContent_length; lia|apply filling_starts; exact Hbatches].
    destruct (all outcomes); exact Hdone.
Qed.

Lemma step_batches a w : batches_hold (db w) -> batches_hold (db (step a w).1).
Proof.
  intros Hbatches. destruct a; simpl; try exact Hbatches.
  - destruct (searchCards _ _ _). exact Hbatches.
  - apply generateContent_batches. exact Hbatches.
Qed.

(** *** What is displayed *)

Lemma generateContent_displayed be w :
  displayed_ok w -> displayed_ok (generateContent be w).1.
Proof.
  intros Hshown.
  destruct (selectedCard (ui w)) as [card|] eqn:Ecard;
    [|rewrite generateContent_incomplete by (left; exact Ecard);
      exact Hshown].
  destruct (complete (ui w)) eqn:Ecomplete;
    [|rewrite generateContent_incomplete by (right; exact Ecomplete);
      exact Hshown].
  destruct (inputError be) as [error|] eqn:Einput.
  - rewrite (generateContent_unsent be w card error Ecard Ecomplete Einput).
    exact Hshown.
  - destruct (generateContent_stored be w card Ecard Ecomplete Einput)
      as (outcomes & t' & events & Hstored & ->).
    pose proof (stored_grows _ _ _ _ _ _ _ Hstored) as [_ Hsub].
    destruct (all outcomes) as [thrown|results] eqn:Eall.
    + destruct Hshown as [Hkept Hshape]. split; [|exact Hshape].
      intros k shown Hin. simpl in *.
      eapply lookup_weaken; [exact (Hkept k shown Hin)|exact Hsub].
    + apply all_inr in Eall. split; simpl.
      * intros k shown Hin.
        apply (stored_rows_kept _ _ _ _ _ _ _ Hstored (k, shown)).
        rewrite Eall. apply List.in_map. exact Hin.
      * right. exists (fresh (dom (Db.user_inputs (db w)))).
        pose proof (stored_outcome_rows _ _ _ _ _ _ _ Hstored results Eall)
          as Hrows.
        rewrite <- (List.map_map snd
                      (fun row => (Db.input_id row, Db.variation_number row))),
                Hrows.
        reflexivity.
Qed.

Lemma step_displayed a w : displayed_ok w -> displayed_ok (step a w).1.
Proof.
  intros Hshown. destruct a; simpl; try exact Hshown.
  - destruct (searchCards value response (setCardSearch value (ui w)))
      as [st events] eqn:Esearch.
    assert (Hsame : generatedContent st = generatedContent (ui w)).
    { revert Esearch. unfold searchCards.
      destruct (negb _); [|destruct response]; intros [= <- _]; reflexivity. }
    unfold displayed_ok. simpl. rewrite Hsame. exact Hshown.
  - apply generateContent_displayed. exact Hshown.
Qed.

(** *** Search *)

Lemma startsWith_spec sub s :
  startsWith s sub = true <-> exists back, s = sub ++ back.
Proof.
  revert s. induction sub as [|a sub IH]; intros s.
  - split; [intros _; exists s; reflexivity|intros _; destruct s; reflexivity].
  - destruct s as [|b s]; simpl.
    + split; [discriminate|intros [back Hback]; discriminate].
    + rewrite andb_true_iff, N.eqb_eq, IH. split.
      * intros [-> [back ->]]. exists back. reflexivity.
      * intros [back [= -> ->]]. split; [reflexivity|exists back; reflexivity].
Qed.

Lemma includes_spec s sub : includes s sub = true <-> infix sub s.
Proof.
  induction s as [|c r IH]; cbn [includes].
  - rewrite orb_false_r, startsWith_spec. split.
    + intros [back Hback]. exists [], back. exact Hback.
    + intros (front & back & Hs). destruct front; [|discriminate].
      exists back. exact Hs.
  - rewrite orb_true_iff, startsWith_spec, IH. split.
    + intros [[back Hback]|(front & back & ->)].
      * exists [], back. exact Hback.
      * exists (c :: front), back. reflexivity.
    + intros (front & back & Hs). destruct front as [|a front].
      * left. exists back. exact Hs.
      * right. injection Hs as _ ->. exists front, back. reflexivity.
Qed.

(** X9. Every card the search shows has the lower-case query as a contiguous
    part of its lower-case card name or of its lower-case bank name. *)
Theorem search_results_contain_query (query : jsstring)
  (cards : list Catalog.Card) (st : State) :
  Forall
    (fun card =>
       (exists name, card_name card = Some name
          /\ infix (toLowerCase query) (toLowerCase name))
       \/ (exists bank, bank_name card = Some bank
          /\ infix (toLowerCase query) (toLowerCase bank)))
    (searchResults (searchCards query (Catalog.Payload (Some cards)) st).1).
Proof.
  unfold searchCards. destruct (negb (truthy (trim query))); simpl.
  - constructor.
  - apply List.Forall_map, Forall_take, List.Forall_forall.
    intros raw [_ Hm]%List.filter_In.
    unfold matches in Hm. apply orb_prop in Hm as [Hm|Hm]; [left|right].
    + destruct (Catalog.card_name raw) as [name|] eqn:E; [|discriminate].
      exists name. split; [exact E|]. apply includes_spec. exact Hm.
    + destruct (Catalog.issuing_bank raw) as [bank|] eqn:E; [|discriminate].
      exists bank. split; [exact E|]. apply includes_spec. exact Hm.
Qed.

(** X10. While fewer than five cards are shown, the search has left out no card
    of the catalog that matches the query. *)
Theorem search_misses_nothing (query : jsstring) (cards : list Catalog.Card)
  (st : State) (raw : Catalog.Card) :
  trim query <> [] ->
  (length (searchResults
             (searchCards query (Catalog.Payload (Some cards)) st).1) < 5)%nat ->
  In raw cards ->
  matches query raw = true ->
  In (toCreditCard raw)
     (searchResults (searchCards query (Catalog.Payload (Some cards)) st).1).
Proof.
  intros Hquery. unfold searchCards.
  apply truthy_true in Hquery. rewrite Hquery. simpl.
  rewrite length_map, length_take. intros Hfew Hraw Hmatch.
  apply List.in_map. rewrite take_ge by lia.
  apply List.filter_In. split; assumption.
Qed.

(** X11. When the catalog cannot be read, the cards of the search before stay
    on display: the result set is not emptied; one request was sent and one
    notice is shown. *)
Theorem search_failure_keeps_results (query message : jsstring) (st : State) :
  trim query <> [] ->
  searchCards query (Catalog.Failed message) st
  = (setIsSearching false st, [CatalogRequest; search_failed])
  /\ searchResults (searchCards query (Catalog.Failed message) st).1
     = searchResults st.
Proof.
  intros Hquery. unfold searchCards.
  apply truthy_true in Hquery. rewrite Hquery. split; reflexivity.
Qed.

(** *** Generation *)

(** X12. The button [Generate Now], when it is enabled, never leads to the
    notice of missing information: the run sends the input row. *)
Theorem enabled_button_passes_validation (be : Backend) (w : World) :
  generateDisabled (ui w) = false ->
  exists card events,
    selectedCard (ui w) = Some card
    /\ (generateContent be w).2
       = InsertUserInput (input_row card (ui w)) :: events.
Proof.
  unfold generateDisabled. intros Henabled.
  repeat (apply orb_false_elim in Henabled as [Henabled ?]).
  destruct (selectedCard (ui w)) as [card|] eqn:Ecard; [|discriminate].
  assert (Hcomplete : complete (ui w) = true).
  { unfold complete. rewrite Ecard.
    repeat match goal with
           | Hn : negb _ = false |- _ => apply negb_false_iff in Hn; rewrite Hn
           end.
    reflexivity. }
  exists card. unfold generateContent, attempt. rewrite Ecard, Hcomplete.
  destruct (inputError be); [eexists; split; reflexivity|].
  cbn [Db.insert_user_input].
  match goal with
  | |- context [contentPromises be ?input 0 ?contents ?t1] =>
      destruct (contentPromises be input 0 contents t1)
        as [[outcomes t2] events]
  end.
  destruct (all outcomes); eexists; split; reflexivity.
Qed.

(** X13. When the insert of the input row fails, nothing is stored and nothing
    else is sent: both tables and the displayed content stay as they were,
    and the notice of failure is shown. *)
Theorem input_failure_stores_nothing (be : Backend) (w : World)
  (card : CreditCard) (error : jsstring) :
  selectedCard (ui w) = Some card ->
  complete (ui w) = true ->
  inputError be = Some error ->
  db (generateContent be w).1 = db w
  /\ generatedContent (ui (generateContent be w).1) = generatedContent (ui w)
  /\ isGenerating (ui (generateContent be w).1) = false
  /\ (generateContent be w).2
     = [InsertUserInput (input_row card (ui w)); generation_failed].
Proof.
  intros Hcard Hcomplete Hinput.
  rewrite (generateContent_unsent be w card error Hcard Hcomplete Hinput).
  repeat split.
Qed.

(** X14. When the input row is stored and one insert of an output row fails,
    the input row stays in its table all the same, the output rows that
    were stored stay too, the displayed content is left as it was, and the
    notice of failure is shown. *)
Theorem output_failure_leaves_orphan (be : Backend) (w : World)
  (card : CreditCard) (index : nat) (error : jsstring) :
  selectedCard (ui w) = Some card ->
  complete (ui w) = true ->
  inputError be = None ->
  (index < 4)%nat ->
  outputError be index = Some error ->
  Db.user_inputs (db (generateContent be w).1)
  = <[fresh (dom (Db.user_inputs (db w))) := input_row card (ui w)]>
      (Db.user_inputs (db w))
  /\ Db.ai_outputs (db w) ⊆ Db.ai_outputs (db (generateContent be w).1)
  /\ generatedContent (ui (generateContent be w).1) = generatedContent (ui w)
  /\ isGenerating (ui (generateContent be w).1) = false
  /\ last (generateContent be w).2 = Some generation_failed.
Proof.
  intros Hcard Hcomplete Hinput Hindex Herror.
  destruct (generateContent_stored be w card Hcard Hcomplete Hinput)
    as (outcomes & t' & events & Hstored & ->).
  pose proof (stored_grows _ _ _ _ _ _ _ Hstored) as [Hinputs Hsub].
  assert (Hin : In (inl error) outcomes).
  { apply (stored_failure _ _ _ _ _ _ _ Hstored index error);
      [rewrite mockContent_length; lia|exact Herror]. }
  destruct (all_inl outcomes error Hin) as [thrown ->]. simpl.
  split; [exact Hinputs|]. split; [exact Hsub|].
  split; [reflexivity|]. split; [reflexivity|]. apply last_snoc.
Qed.

(** [generateContent] leaves the selected card and the fields of the form
    as they are. *)
Lemma generateContent_form be w :
  selectedCard (ui (generateContent be w).1) = selectedCard (ui w)
  /\ platform (ui (generateContent be w).1) = platform (ui w)
  /\ audience (ui (generateContent be w).1) = audience (ui w)
  /\ language (ui (generateContent be w).1) = language (ui w)
  /\ tone (ui (generateContent be w).1) = tone (ui w)
  /\ customPrompt (ui (generateContent be w).1) = customPrompt (ui w).
Proof.
  unfold generateContent.
  destruct (selectedCard (ui w)) as [card|] eqn:Ecard;
    [|simpl; rewrite ?Ecard; repeat split].
  destruct (complete (ui w)); [|simpl; rewrite ?Ecard; repeat split].
  destruct (attempt be card (ui w) (db w)) as [[[thrown|results] t] events];
    simpl; rewrite ?Ecard; repeat split.
Qed.

Lemma batch_lookups {A : Type} (m : gmap Db.RowId A) o1 o2 o3 o4 r1 r2 r3 r4 :
  NoDup [o1; o2; o3; o4] ->
  let m' := <[o4 := r4]> (<[o3 := r3]> (<[o2 := r2]> (<[o1 := r1]> m))) in
  m' !! o1 = Some r1 /\ m' !! o2 = Some r2
  /\ m' !! o3 = Some r3 /\ m' !! o4 = Some r4.
Proof.
  rewrite !NoDup_cons, !not_elem_of_cons.
  intros ((H12 & H13 & H14 & _) & (H23 & H24 & _) & (H34 & _) & _).
  simpl. repeat split.
  - rewrite !lookup_insert_ne by congruence. apply lookup_insert_eq.
  - rewrite !lookup_insert_ne by congruence. apply lookup_insert_eq.
  - rewrite lookup_insert_ne by congruence. apply lookup_insert_eq.
  - apply lookup_insert_eq.
Qed.

(** X15. Generating twice in a row with the form as it is, every insert
    succeeding, stores two input rows with the same columns under two
    keys; the first batch is still stored after the second run, each batch
    references its own input row, and both carry the same four strings. *)
Theorem regenerate_repeats (be1 be2 : Backend) (w : World)
  (card : CreditCard) :
  selectedCard (ui w) = Some card ->
  complete (ui w) = true ->
  inputError be1 = None -> (forall index, outputError be1 index = None) ->
  inputError be2 = None -> (forall index, outputError be2 index = None) ->
  let w1 := (generateContent be1 w).1 in
  let w2 := (generateContent be2 w1).1 in
  exists i1 i2,
    i1 <> i2
    /\ Db.user_inputs (db w) !! i1 = None
    /\ Db.user_inputs (db w) !! i2 = None
    /\ Db.user_inputs (db w2) !! i1 = Some (input_row card (ui w))
    /\ Db.user_inputs (db w2) !! i2 = Some (input_row card (ui w))
    /\ Forall (fun shown => Db.input_id shown.2 = Some i1
                 /\ Db.ai_outputs (db w2) !! shown.1 = Some shown.2)
              (generatedContent (ui w1))
    /\ Forall (fun shown => Db.input_id shown.2 = Some i2
                 /\ Db.ai_outputs (db w2) !! shown.1 = Some shown.2)
              (generatedContent (ui w2))
    /\ List.map (fun shown => Db.content_variation shown.2)
                (generatedContent (ui w1))
       = mockContent card (ui w)
    /\ List.map (fun shown => Db.content_variation shown.2)
                (generatedContent (ui w2))
       = mockContent card (ui w).
Proof.
  intros Hcard Hcomplete Hin1 Hout1 Hin2 Hout2 w1 w2.
  destruct (generateContent_form be1 w)
    as (Fcard & Fplatform & Faudience & Flanguage & Ftone & Fcustom).
  fold w1 in Fcard, Fplatform, Faudience, Flanguage, Ftone, Fcustom.
  assert (Hcard1 : selectedCard (ui w1) = Some card) by congruence.
  assert (Hcomplete1 : complete (ui w1) = true).
  { unfold complete in *.
    rewrite Fcard, Fplatform, Faudience, Flanguage, Ftone. exact Hcomplete. }
  assert (Hrow : input_row card (ui w1) = input_row card (ui w)).
  { unfold input_row.
    rewrite Fplatform, Faudience, Flanguage, Ftone, Fcustom. reflexivity. }
  assert (Hmock : mockContent card (ui w1) = mockContent card (ui w)).
  { unfold mockContent. rewrite Faudience, Ftone. reflexivity. }
  pose proof (ClientFacts.generateContent_grows be2 w1) as [_ Hsub].
  fold w2 in Hsub.
  destruct (ClientFacts.generateContent_success be1 w card
              Hcard Hcomplete Hin1 Hout1)
    as (i1 & o1 & o2 & o3 & o4 & c1 & c2 & c3 & c4
        & Hmock1 & Hnone1 & Hui1 & Hnd1 & _ & Hao1 & Hgc1).
  destruct (ClientFacts.generateContent_success be2 w1 card
              Hcard1 Hcomplete1 Hin2 Hout2)
    as (i2 & p1 & p2 & p3 & p4 & d1 & d2 & d3 & d4
        & Hmock2 & Hnone2 & Hui2 & Hnd2 & _ & Hao2 & Hgc2).
  fold w1 in Hui1, Hao1, Hgc1. fold w1 w2 in Hui2, Hao2, Hgc2.
  rewrite Hrow in Hui2. rewrite Hmock in Hmock2.
  pose proof Hnone2 as Hnone2'. rewrite Hui1 in Hnone2'.
  apply lookup_insert_None in Hnone2' as [Hnone2' Hne].
  exists i1, i2.
  split; [exact Hne|]. split; [exact Hnone1|]. split; [exact Hnone2'|].
  split; [rewrite Hui2, Hui1, lookup_insert_ne by congruence;
          apply lookup_insert_eq|].
  split; [rewrite Hui2; apply lookup_insert_eq|].
  split; [|split; [|split]].
  - rewrite Hgc1.
    destruct (batch_lookups (Db.ai_outputs (db w)) o1 o2 o3 o4
                {| Db.input_id := Some i1; Db.variation_number := 1;
                   Db.content_variation := c1 |}
                {| Db.input_id := Some i1; Db.variation_number := 2;
                   Db.content_variation := c2 |}
                {| Db.input_id := Some i1; Db.variation_number := 3;
                   Db.content_variation := c3 |}
                {| Db.input_id := Some i1; Db.variation_number := 4;
                   Db.content_variation := c4 |} Hnd1)
      as (L1 & L2 & L3 & L4).
    rewrite <- Hao1 in L1, L2, L3, L4.
    repeat constructor; simpl; eapply lookup_weaken; eassumption.
  - rewrite Hgc2.
    destruct (batch_lookups (Db.ai_outputs (db w1)) p1 p2 p3 p4
                {| Db.input_id := Some i2; Db.variation_number := 1;
                   Db.content_variation := d1 |}
                {| Db.input_id := Some i2; Db.variation_number := 2;
                   Db.content_variation := d2 |}
                {| Db.input_id := Some i2; Db.variation_number := 3;
                   Db.content_variation := d3 |}
                {| Db.input_id := Some i2; Db.variation_number := 4;
                   Db.content_variation := d4 |} Hnd2)
      as (L1 & L2 & L3 & L4).
    rewrite <- Hao2 in L1, L2, L3, L4.
    repeat constructor; simpl; assumption.
  - rewrite Hgc1, Hmock1. reflexivity.
  - rewrite Hgc2, Hmock2. reflexivity.
Qed.

(** X16. Whatever the user does, in any order and with any outcome of the
    requests, tables in which every output row references an input row
    and no input has two output rows of the same ordinal, the ordinals
    being 1 to 4, stay so. *)
Theorem batches_are_kept (actions : list Action) (w : World) :
  batches_hold (db w) -> batches_hold (db (run actions w)).
Proof.
  revert w. induction actions as [|a rest IH]; intros w Hbatches; simpl.
  - exact Hbatches.
  - apply IH, step_batches, Hbatches.
Qed.

(** X17. Whatever the user does, what is on display stays stored as displayed,
    and it stays nothing at all or the four rows of one batch in the order
    of the ordinals 1 to 4: a run that fails midway never shows a part of
    a batch. *)
Theorem display_is_kept (actions : list Action) (w : World) :
  displayed_ok w -> displayed_ok (run actions w).
Proof.
  revert w. induction actions as [|a rest IH]; intros w Hshown; simpl.
  - exact Hshown.
  - apply IH, step_displayed, Hshown.
Qed.

(** X18. The tone tells in [mockContent] only by whether it is ['exciting'] or
    ['friendly'], and the audience only by its lower-case form: with any
    two other tones the four strings are the same. *)
Theorem other_tones_are_alike (card : CreditCard) (st1 st2 : State) :
  toLowerCase (audience st1) = toLowerCase (audience st2) ->
  tone st1 <> lit "exciting" -> tone st1 <> lit "friendly" ->
  tone st2 <> lit "exciting" -> tone st2 <> lit "friendly" ->
  mockContent card st1 = mockContent card st2.
Proof.
  intros Haudience He1 Hf1 He2 Hf2. unfold mockContent.
  rewrite Haudience.
  destruct (decide (tone st1 = lit "exciting")); [contradiction|].
  destruct (decide (tone st1 = lit "friendly")); [contradiction|].
  destruct (decide (tone st2 = lit "exciting")); [contradiction|].
  destruct (decide (tone st2 = lit "friendly")); [contradiction|].
  reflexivity.
Qed.

End WithRuntime.

(** *** The session *)

Lemma batches_hold_empty :
  batches_hold {| Db.user_inputs := ∅; Db.ai_outputs := ∅ |}.
Proof.
  split; [|split].
  - intros k row Hk. simpl in Hk. rewrite lookup_empty in Hk. discriminate.
  - intros k row Hk. simpl in Hk. rewrite lookup_empty in Hk. discriminate.
  - intros k1 k2 row1 row2 Hk. simpl in Hk. rewrite lookup_empty in Hk.
    discriminate.
Qed.

Lemma displayed_ok_filled : displayed_ok filled.
Proof. split; [intros k row []|left; reflexivity]. Qed.

Example session_tables :
  size (Db.user_inputs (db (@run basic_latin session filled))) = 3%nat
  /\ size (Db.ai_outputs (db (@run basic_latin session filled))) = 11%nat
  /\ List.map (fun shown => Db.input_id shown.2)
       (generatedContent (ui (@run basic_latin session filled)))
     = [Some 3; Some 3; Some 3; Some 3]%positive.
Proof. vm_compute. repeat split. Qed.

Lemma search_misses_nothing_witness :
  trim (lit "BAN") <> []
  /\ (length (searchResults
                (@searchCards basic_latin (lit "BAN") catalog (ui filled)).1)
      < 5)%nat
  /\ In sample_raw [sample_raw]
  /\ @matches basic_latin (lit "BAN") sample_raw = true
  /\ In (toCreditCard sample_raw)
       (searchResults
          (@searchCards basic_latin (lit "BAN") catalog (ui filled)).1).
Proof.
  assert (Hquery : trim (lit "BAN") <> []) by (vm_compute; discriminate).
  assert (Hfew : (length (searchResults
                            (@searchCards basic_latin (lit "BAN") catalog
                               (ui filled)).1) < 5)%nat)
    by (vm_compute; lia).
  assert (Hraw : In sample_raw [sample_raw]) by (left; reflexivity).
  assert (Hmatch : @matches basic_latin (lit "BAN") sample_raw = true)
    by reflexivity.
  split; [exact Hquery|]. split; [exact Hfew|].
  split; [exact Hraw|]. split; [exact Hmatch|].
  exact (@search_misses_nothing basic_latin (lit "BAN") [sample_raw]
           (ui filled) sample_raw Hquery Hfew Hraw Hmatch).
Defined.

Lemma search_failure_keeps_results_witness :
  trim (lit "BAN") <> []
  /\ @searchCards basic_latin (lit "BAN") (Catalog.Failed (lit "Failed to fetch"))
       (setSearchResults [sample_card] (ui filled))
     = (setIsSearching false (setSearchResults [sample_card] (ui filled)),
        [CatalogRequest; search_failed])
  /\ searchResults
       (@searchCards basic_latin (lit "BAN")
          (Catalog.Failed (lit "Failed to fetch"))
          (setSearchResults [sample_card] (ui filled))).1
     = searchResults (setSearchResults [sample_card] (ui filled)).
Proof.
  assert (Hquery : trim (lit "BAN") <> []) by (vm_compute; discriminate).
  split; [exact Hquery|].
  exact (@search_failure_keeps_results basic_latin (lit "BAN")
           (lit "Failed to fetch")
           (setSearchResults [sample_card] (ui filled)) Hquery).
Defined.

Lemma enabled_button_passes_validation_witness :
  generateDisabled (ui filled) = false
  /\ exists card events,
       selectedCard (ui filled) = Some card
       /\ (@generateContent basic_latin third_fails filled).2
          = InsertUserInput (input_row card (ui filled)) :: events.
Proof.
  split; [reflexivity|].
  exact (@enabled_button_passes_validation basic_latin third_fails filled
           eq_refl).
Defined.

Lemma input_failure_stores_nothing_witness :
  selectedCard (ui generated) = Some sample_card
  /\ complete (ui generated) = true
  /\ inputError input_fails = Some (lit "violates foreign key constraint")
  /\ db (@generateContent basic_latin input_fails generated).1 = db generated
  /\ generatedContent (ui (@generateContent basic_latin input_fails generated).1)
     = generatedContent (ui generated)
  /\ isGenerating (ui (@generateContent basic_latin input_fails generated).1)
     = false
  /\ (@generateContent basic_latin input_fails generated).2
     = [InsertUserInput (input_row sample_card (ui generated));
        generation_failed].
Proof.
  split; [reflexivity|]. split; [reflexivity|]. split; [reflexivity|].
  exact (@input_failure_stores_nothing basic_latin input_fails generated
           sample_card _ eq_refl eq_refl eq_refl).
Defined.

Lemma output_failure_leaves_orphan_witness :
  selectedCard (ui generated) = Some sample_card
  /\ complete (ui generated) = true
  /\ inputError third_fails = None
  /\ (2 < 4)%nat
  /\ outputError third_fails 2 = Some (lit "timeout")
  /\ Db.user_inputs (db (@generateContent basic_latin third_fails generated).1)
     = <[fresh (dom (Db.user_inputs (db generated)))
         := input_row sample_card (ui generated)]>
         (Db.user_inputs (db generated))
  /\ Db.ai_outputs (db generated)
     ⊆ Db.ai_outputs (db (@generateContent basic_latin third_fails generated).1)
  /\ generatedContent
       (ui (@generateContent basic_latin third_fails generated).1)
     = generatedContent (ui generated)
  /\ isGenerating (ui (@generateContent basic_latin third_fails generated).1)
     = false
  /\ last (@generateContent basic_latin third_fails generated).2
     = Some generation_failed.
Proof.
  assert (Hindex : (2 < 4)%nat) by lia.
  split; [reflexivity|]. split; [reflexivity|]. split; [reflexivity|].
  split; [exact Hindex|]. split; [reflexivity|].
  exact (@output_failure_leaves_orphan basic_latin third_fails generated
           sample_card 2 (lit "timeout") eq_refl eq_refl eq_refl Hindex
           eq_refl).
Defined.

Lemma regenerate_repeats_witness :
  selectedCard (ui filled) = Some sample_card
  /\ complete (ui filled) = true
  /\ inputError reliable = None
  /\ (forall index, outputError reliable index = None)
  /\ let w1 := (@generateContent basic_latin reliable filled).1 in
     let w2 := (@generateContent basic_latin reliable w1).1 in
     exists i1 i2,
       i1 <> i2
       /\ Db.user_inputs (db filled) !! i1 = None
       /\ Db.user_inputs (db filled) !! i2 = None
       /\ Db.user_inputs (db w2) !! i1
          = Some (input_row sample_card (ui filled))
       /\ Db.user_inputs (db w2) !! i2
          = Some (input_row sample_card (ui filled))
       /\ Forall (fun shown => Db.input_id shown.2 = Some i1
                    /\ Db.ai_outputs (db w2) !! shown.1 = Some shown.2)
                 (generatedContent (ui w1))
       /\ Forall (fun shown => Db.input_id shown.2 = Some i2
                    /\ Db.ai_outputs (db w2) !! shown.1 = Some shown.2)
                 (generatedContent (ui w2))
       /\ List.map (fun shown => Db.content_variation shown.2)
                   (generatedContent (ui w1))
          = @mockContent basic_latin sample_card (ui filled)
       /\ List.map (fun shown => Db.content_variation shown.2)
                   (generatedContent (ui w2))
          = @mockContent basic_latin sample_card (ui filled).
Proof.
  split; [reflexivity|]. split; [reflexivity|]. split; [reflexivity|].
  split; [intros index; reflexivity|].
  exact (@regenerate_repeats basic_latin reliable reliable filled sample_card
           eq_refl eq_refl eq_refl (fun _ => eq_refl)
           eq_refl (fun _ => eq_refl)).
Defined.

Lemma batches_are_kept_witness :
  batches_hold (db filled)
  /\ batches_hold (db (@run basic_latin session filled)).
Proof.
  split; [exact batches_hold_empty|].
  exact (@batches_are_kept basic_latin session filled batches_hold_empty).
Defined.

Lemma display_is_kept_witness :
  displayed_ok filled /\ displayed_ok (@run basic_latin session filled).
Proof.
  split; [exact displayed_ok_filled|].
  exact (@display_is_kept basic_latin session filled displayed_ok_filled).
Defined.

Lemma other_tones_are_alike_witness :
  @toLowerCase basic_latin (audience professional)
  = @toLowerCase basic_latin (audience quirky)
  /\ tone professional <> lit "exciting"
  /\ tone professional <> lit "friendly"
  /\ tone quirky <> lit "exciting"
  /\ tone quirky <> lit "friendly"
  /\ tone professional <> tone quirky
  /\ audience professional <> audience quirky
  /\ @mockContent basic_latin sample_card professional
     = @mockContent basic_latin sample_card quirky.
Proof.
  assert (He1 : tone professional <> lit "exciting")
    by (vm_compute; discriminate).
  assert (Hf1 : tone professional <> lit "friendly")
    by (vm_compute; discriminate).
  assert (He2 : tone quirky <> lit "exciting") by (vm_compute; discriminate).
  assert (Hf2 : tone quirky <> lit "friendly") by (vm_compute; discriminate).
  split; [reflexivity|]. split; [exact He1|]. split; [exact Hf1|].
  split; [exact He2|]. split; [exact Hf2|].
  split; [vm_compute; discriminate|]. split; [vm_compute; discriminate|].
  exact (@other_tones_are_alike basic_latin sample_card professional quirky
           eq_refl He1 Hf1 He2 Hf2).
Defined.

End ClientExtra.
